(** * Shallow embedding of the gopher-uptime coordination and settlement core.

    Sources embedded:
    - [cmd/hub/main.go]: [handleSignup], [handleValidate], [startMonitoring]
      (one ticker cycle) and [createValidateCallback];
    - [internal/handlers/user/handler.go]: [RequestPayout];
    - [internal/services] (payout worker): [processPayoutRequest],
      [executeSolanaTransfer], [waitForConfirmation];
    - [cmd/api/main.go] (validator agent): [validateWebsite].
    - [cmd/hub/main.go]: [handleWebSocket], [removeValidator] and the
      registry update of [handleSignup];
    - [cmd/api/main.go] (validator agent): [signup], [handleSignupResponse];
    - [internal/handlers/website/handler.go]: [CreateWebsite], [DeleteWebsite];
    - [internal/middleware/auth.go]: [AuthMiddleware];
    - [internal/handlers/user/handler.go]: [Signup], [Login].

    The relational store is a record of gmaps (one per table) plus the
    append-only tick list.  Every store failure of a GORM call is an
    explicit boolean fault flag given as input, so that all error paths
    of the source are reachable.  Money is kept in integer lamports (Z):
    all amounts are whole multiples of [COST_PER_VALIDATION]. *)

From stdpp Require Import base gmap strings list fin_maps.
From Stdlib Require Import ZArith Lia.

Open Scope Z_scope.

(* ------------------------------------------------------------------ *)
(** ** Data model ([internal/models/models.go]) *)

Record Website := mkWebsite {
  w_ID : string;
  w_URL : string;
  w_UserID : string;
  w_Disabled : bool
}.

Record Validator := mkValidator {
  v_ID : string;
  v_PublicKey : string;
  v_Location : string;
  v_IP : string;
  v_PendingPayouts : Z
}.

(** [CreatedAt] is omitted: no claim reads it. *)
Record WebsiteTick := mkTick {
  t_ID : string;
  t_WebsiteID : string;
  t_ValidatorID : string;
  t_Status : string;
  t_Latency : Z
}.

Record PayoutTransaction := mkPayoutTx {
  p_ID : string;
  p_ValidatorID : string;
  p_Amount : Z;
  p_Status : string;
  p_TxSignature : string;
  p_ErrorMessage : string
}.

Record DB := mkDB {
  db_websites : gmap string Website;
  db_validators : gmap string Validator;
  db_ticks : list WebsiteTick;
  db_payouts : gmap string PayoutTransaction
}.

(** [const COST_PER_VALIDATION = 100 // lamports] *)
Definition COST_PER_VALIDATION : Z := 100.

(** Column update [pending_payouts = pending_payouts + delta] restricted to
    [WHERE id = vid]: no row matches when [vid] is unknown, which GORM
    reports as success with zero affected rows. *)
Definition set_pending (p : Z) (v : Validator) : Validator :=
  mkValidator (v_ID v) (v_PublicKey v) (v_Location v) (v_IP v) p.

Definition add_pending (delta : Z) (v : Validator) : Validator :=
  set_pending (v_PendingPayouts v + delta) v.

Definition db_add_pending (vid : string) (delta : Z) (db : DB) : DB :=
  mkDB (db_websites db) (alter (add_pending delta) vid (db_validators db))
       (db_ticks db) (db_payouts db).

Definition db_set_pending (vid : string) (p : Z) (db : DB) : DB :=
  mkDB (db_websites db) (alter (set_pending p) vid (db_validators db))
       (db_ticks db) (db_payouts db).

(** The validator's pending credit as read by [First(&validator)];
    0 for an absent row (such a row is never credited). *)
Definition credit_of (vid : string) (db : DB) : Z :=
  match db_validators db !! vid with
  | Some v => v_PendingPayouts v
  | None => 0
  end.

(** Number of Result rows of a validator. *)
Definition tick_count (vid : string) (db : DB) : nat :=
  length (filter (fun t => t_ValidatorID t = vid) (db_ticks db)).

(** [tx.Create(&tick)]: fails on a duplicate primary key or a violated
    foreign key ([WebsiteTick.Website] / [WebsiteTick.Validator] carry
    [constraint:OnDelete:CASCADE], so AutoMigrate creates both). *)
Definition tick_insertable (tick : WebsiteTick) (db : DB) : bool :=
  bool_decide (is_Some (db_websites db !! t_WebsiteID tick)) &&
  bool_decide (is_Some (db_validators db !! t_ValidatorID tick)) &&
  negb (existsb (fun t => bool_decide (t_ID t = t_ID tick)) (db_ticks db)).

Definition db_insert_tick (tick : WebsiteTick) (db : DB) : DB :=
  mkDB (db_websites db) (db_validators db) (db_ticks db ++ [tick])
       (db_payouts db).

(* ------------------------------------------------------------------ *)
(** ** Hub messages ([cmd/hub/main.go]) *)

Record ValidateIncoming := mkValidateIncoming {
  vi_CallbackID : string;
  vi_Status : string;
  vi_Latency : Z;
  vi_ValidatorID : string;
  vi_WebsiteID : string;
  vi_SignedMessage : string
}.

(** The [data] field of an inbound frame ([json.RawMessage]): either a
    JSON object that decodes to [ValidateIncoming] or bytes on which
    [json.Unmarshal] fails. *)
Inductive RawMessage :=
  | RawValidate (v : ValidateIncoming)
  | RawMalformed.

Definition unmarshal_validate (data : RawMessage) : option ValidateIncoming :=
  match data with
  | RawValidate v => Some v
  | RawMalformed => None
  end.

Record IncomingMessage := mkIncoming {
  im_Type : string;
  im_Data : RawMessage
}.

(** Faults of the store during the callback's transaction: the insert,
    the update and the commit can each return an error ([tx.Begin] failing
    makes the first statement fail, covered by [fx_create]). *)
Record TxFaults := mkTxFaults {
  fx_create : bool;
  fx_update : bool;
  fx_commit : bool
}.

Definition no_faults : TxFaults := mkTxFaults false false false.

(** [createValidateCallback(websiteID, validatorPublicKey)] applied to a
    message.  The transaction works on a private copy of the store; a
    rollback or a failed commit leaves the committed store as it was.
    [tick_id] is the [uuid.New()] of the tick.  [validatorPublicKey] is
    captured by the closure and, as in the source, never used. *)
Definition createValidateCallback (websiteID validatorPublicKey : string)
    (tick_id : string) (fx : TxFaults) (msg : IncomingMessage) (db : DB) : DB :=
  match unmarshal_validate (im_Data msg) with
  | None => db
  | Some validate =>
      let tick := mkTick tick_id websiteID (vi_ValidatorID validate)
                         (vi_Status validate) (vi_Latency validate) in
      if fx_create fx || negb (tick_insertable tick db) then db
      else
        let tx1 := db_insert_tick tick db in
        if fx_update fx then db
        else
          let tx2 := db_add_pending (vi_ValidatorID validate) COST_PER_VALIDATION tx1 in
          if fx_commit fx then db else tx2
  end.

Record SignupIncoming := mkSignupIncoming {
  si_IP : string;
  si_PublicKey : string;
  si_SignedMessage : string;
  si_CallbackID : string
}.

Definition find_by_public_key (pk : string) (db : DB) : option Validator :=
  head (filter (fun v => v_PublicKey v = pk) (map snd (map_to_list (db_validators db)))).

(** Store effect of [handleSignup]: find the validator by public key, or
    create it with a fresh id ([uuid.New()]) and the column default 0
    for [PendingPayouts].  [fx_find] / [fx_create_v] are store errors. *)
Definition handleSignup_db (new_id : string) (fx_find fx_create_v : bool)
    (signup : SignupIncoming) (db : DB) : DB * option Validator :=
  if fx_find then (db, None) else
  match find_by_public_key (si_PublicKey signup) db with
  | Some v => (db, Some v)
  | None =>
      let v := mkValidator new_id (si_PublicKey signup) "unknown" (si_IP signup) 0 in
      if fx_create_v || bool_decide (is_Some (db_validators db !! new_id)) then (db, None)
      else (mkDB (db_websites db) (<[new_id := v]> (db_validators db))
                 (db_ticks db) (db_payouts db), Some v)
  end.

(** Store states reachable from [db0] through the hub's store writers
    (probe-reply callbacks and signups), with no settlement. *)
Inductive hub_reachable (db0 : DB) : DB -> Prop :=
  | hr_refl : hub_reachable db0 db0
  | hr_callback db wid pk tid fx msg :
      hub_reachable db0 db ->
      hub_reachable db0 (createValidateCallback wid pk tid fx msg db)
  | hr_signup db nid f1 f2 s :
      hub_reachable db0 db ->
      hub_reachable db0 (fst (handleSignup_db nid f1 f2 s db)).

(* ------------------------------------------------------------------ *)
(** ** Hub registries, correlation table and dispatch ([cmd/hub/main.go]) *)

(** A live connection handle is an opaque number. *)
Record ValidatorConnection := mkVC {
  vc_ValidatorID : string;
  vc_PublicKey : string;
  vc_Conn : nat
}.

(** Every handler put in [h.callbacks] is a closure built by
    [createValidateCallback(websiteID, validatorPublicKey)]: it is
    represented by the two captured values. *)
Record Callback := mkCallback {
  cb_websiteID : string;
  cb_validatorPublicKey : string
}.

(** Payload of an outgoing ["validate"] task. *)
Record ValidateTask := mkTask {
  task_url : string;
  task_callbackId : string;
  task_websiteId : string
}.

(** Observable actions of the hub, in program order. *)
Inductive Event :=
  | EvRegister (id : string) (cb : Callback)
  | EvSend (conn : nat) (task : ValidateTask)
  | EvInvoke (id : string) (cb : Callback).

Record Hub := mkHub {
  h_db : DB;
  h_validators : gmap string ValidatorConnection;
  h_callbacks : gmap string Callback;
  h_next_uuid : nat;   (** state of the [uuid.New()] generator *)
  h_trace : list Event
}.

Definition hub_emit (e : Event) (h : Hub) : Hub :=
  mkHub (h_db h) (h_validators h) (h_callbacks h) (h_next_uuid h) (h_trace h ++ [e]).

(** [handleValidate(data)]: decode, look the handler up, run it, then
    delete the id.  [tick_id] and [fx] are what the handler's run needs
    (its tick uuid and the store's faults).  The handler swallows its own
    panics ([recover] in the closure), so the [delete] always runs. *)
Definition handleValidate (tick_id : string) (fx : TxFaults) (data : RawMessage)
    (h : Hub) : Hub :=
  match unmarshal_validate data with
  | None => h
  | Some validate =>
      let id := vi_CallbackID validate in
      match h_callbacks h !! id with
      | None => h
      | Some cb =>
          let db' := createValidateCallback (cb_websiteID cb) (cb_validatorPublicKey cb)
                       tick_id fx (mkIncoming "validate" data) (h_db h) in
          mkHub db' (h_validators h) (delete id (h_callbacks h)) (h_next_uuid h)
                (h_trace h ++ [EvInvoke id cb])
      end
  end.

(** A connection's read loop handing its ["validate"] frames, in order,
    to [handleValidate]. *)
Fixpoint handle_replies (rs : list (string * TxFaults * RawMessage)) (h : Hub) : Hub :=
  match rs with
  | [] => h
  | (tid, fx, data) :: rs' => handle_replies rs' (handleValidate tid fx data h)
  end.

Definition is_invoke_of (id : string) (e : Event) : bool :=
  match e with
  | EvInvoke i _ => bool_decide (i = id)
  | _ => false
  end.

(** How many times the handler registered under [id] ran. *)
Definition count_invokes (id : string) (tr : list Event) : nat :=
  length (filter (fun e => is_invoke_of id e = true) tr).

(** [h.db.Where("disabled = ?", false).Find(&websites)] *)
Definition active_websites (db : DB) : list Website :=
  filter (fun w => w_Disabled w = false) (map snd (map_to_list (db_websites db))).

(** Snapshot of [h.validators] taken under [h.mu.RLock()]. *)
Definition snapshot_validators (h : Hub) : list ValidatorConnection :=
  map snd (map_to_list (h_validators h)).

Section Dispatch.

(** [uuid.New()]: the n-th generated id. *)
Variable uuidNew : nat -> string.

(** Inner loop [for _, validator := range validators]: new id, register
    the handler under [callbackMu], then [validator.Conn.WriteJSON(msg)]
    (a write error is only logged). *)
Fixpoint send_to_validators (website : Website) (vs : list ValidatorConnection)
    (h : Hub) : Hub :=
  match vs with
  | [] => h
  | validator :: vs' =>
      let callbackID := uuidNew (h_next_uuid h) in
      let cb := mkCallback (w_ID website) (vc_PublicKey validator) in
      let h1 := mkHub (h_db h) (h_validators h) (<[callbackID := cb]> (h_callbacks h))
                      (S (h_next_uuid h)) (h_trace h ++ [EvRegister callbackID cb]) in
      let h2 := hub_emit (EvSend (vc_Conn validator)
                            (mkTask (w_URL website) callbackID (w_ID website))) h1 in
      send_to_validators website vs' h2
  end.

(** Outer loop [for _, website := range websites]. *)
Fixpoint send_tasks (ws : list Website) (vs : list ValidatorConnection) (h : Hub) : Hub :=
  match ws with
  | [] => h
  | website :: ws' => send_tasks ws' vs (send_to_validators website vs h)
  end.

(** One iteration of [for range ticker.C] in [startMonitoring];
    [fetch_fail] is an error of the website query ([continue]). *)
Definition monitoring_cycle (fetch_fail : bool) (h : Hub) : Hub :=
  if fetch_fail then h else
  let websites := active_websites (h_db h) in
  match websites with
  | [] => h
  | _ =>
      let validators := snapshot_validators h in
      match validators with
      | [] => h
      | _ => send_tasks websites validators h
      end
  end.

(** Spec-side reading of one cycle, for comparison with the source: the
    (target, validator) pairs in loop order, the k-th pair getting the
    k-th fresh id, each pair contributing a registration followed by one
    send. *)
Definition dispatch_pairs (ws : list Website) (vs : list ValidatorConnection)
    : list (Website * ValidatorConnection) :=
  concat (map (fun w => map (fun v => (w, v)) vs) ws).

Definition pair_events (p : (Website * ValidatorConnection) * string) : list Event :=
  let '((w, v), id) := p in
  [EvRegister id (mkCallback (w_ID w) (vc_PublicKey v));
   EvSend (vc_Conn v) (mkTask (w_URL w) id (w_ID w))].

Definition dispatch_tagged (ws : list Website) (vs : list ValidatorConnection) (n : nat)
    : list ((Website * ValidatorConnection) * string) :=
  let ps := dispatch_pairs ws vs in
  zip ps (map uuidNew (seq n (length ps))).

Definition dispatch_spec_events (ws : list Website) (vs : list ValidatorConnection)
    (n : nat) : list Event :=
  concat (map pair_events (dispatch_tagged ws vs n)).

Definition pair_callback (p : (Website * ValidatorConnection) * string) : string * Callback :=
  let '((w, v), id) := p in (id, mkCallback (w_ID w) (vc_PublicKey v)).

Definition insert_callback (m : gmap string Callback) (kv : string * Callback)
    : gmap string Callback :=
  <[fst kv := snd kv]> m.

Definition dispatch_spec_callbacks (ws : list Website) (vs : list ValidatorConnection)
    (n : nat) (m : gmap string Callback) : gmap string Callback :=
  fold_left insert_callback (map pair_callback (dispatch_tagged ws vs n)) m.

End Dispatch.

(* ------------------------------------------------------------------ *)
(** ** Settlement request ([internal/handlers/user/handler.go]) *)

Record PayoutRequest := mkPayoutRequest {
  pr_ValidatorID : string;
  pr_Amount : Z;
  pr_PublicKey : string
}.

(** A JSON body of the HTTP response: [ErrorResponse(code, msg)] or
    [SuccessResponse(code, {status, message, amount})]. *)
Inductive Response :=
  | RespError (code : Z) (message : string)
  | RespSuccess (code : Z) (status : string) (message : string) (amount : Z).

(** Store and broker faults on the [RequestPayout] path:
    the locking [First] returns a non-NotFound error, [Publish] fails,
    the [Update] fails, [Commit] fails.  [json.Marshal] of a
    [PayoutRequest] of two strings and a finite number cannot fail. *)
Record PayoutFaults := mkPayoutFaults {
  pf_lock : bool;
  pf_publish : bool;
  pf_update : bool;
  pf_commit : bool
}.

Definition no_payout_faults : PayoutFaults := mkPayoutFaults false false false false.

(** [RequestPayout]: the store after the call, the [payout_queue]
    contents after the call (oldest first) and the response.  The
    transaction's writes become visible only on a successful commit;
    [Publish] is outside the transaction and takes effect at once. *)
Definition RequestPayout (fx : PayoutFaults) (validatorID : string)
    (db : DB) (queue : list PayoutRequest) : Response * DB * list PayoutRequest :=
  if pf_lock fx then (RespError 500 "Database error", db, queue) else
  match db_validators db !! validatorID with
  | None => (RespError 404 "Validator not found", db, queue)
  | Some validator =>
      if v_PendingPayouts validator <=? 0 then
        (RespSuccess 200 "cleared" "all payment cleared" 0, db, queue)
      else
        let payoutReq := mkPayoutRequest (v_ID validator) (v_PendingPayouts validator)
                                         (v_PublicKey validator) in
        if pf_publish fx then (RespError 500 "Failed to queue payout", db, queue) else
        let queue' := queue ++ [payoutReq] in
        let tx := db_set_pending (v_ID validator) 0 db in
        if pf_update fx then (RespError 500 "Failed to update balance", db, queue') else
        if pf_commit fx then (RespError 500 "Failed to commit transaction", db, queue') else
        (RespSuccess 200 "queued" "Payout request queued for processing"
                     (pr_Amount payoutReq), tx, queue')
  end.

(* ------------------------------------------------------------------ *)
(** ** Settlement worker ([processPayoutRequest] and helpers) *)

(** Body of a delivery from [payout_queue]. *)
Inductive PayoutBody :=
  | BodyPayout (req : PayoutRequest)
  | BodyMalformed.

(** What the worker does with the delivery: [Ack(false)] or
    [Nack(false, requeue)]. *)
Inductive DeliveryAction :=
  | Acked
  | Nacked (requeue : bool).

(** Answers of the external ledger during [executeSolanaTransfer]:
    [PublicKeyFromBase58], [GetLatestBlockhash], [NewTransaction],
    [tx.Sign], [SendTransactionWithOpts] (error text or result). *)
Record SolanaEnv := mkSolanaEnv {
  sol_pubkey_err : option string;
  sol_blockhash : string + string;
  sol_build_err : option string;
  sol_sign_err : option string;
  sol_send : string + string
}.

(** [executeSolanaTransfer]: [inl] error text or [inr] signature.  The
    amount ([uint64(req.Amount)], exact for the whole, in-range amounts
    queued by [RequestPayout]) goes into the transfer instruction and
    does not influence which answer is returned. *)
Definition executeSolanaTransfer (env : SolanaEnv) (recipientPublicKey : string)
    (lamports : Z) : string + string :=
  match sol_pubkey_err env with
  | Some e => inl (String.append "invalid recipient public key: " e)
  | None =>
  match sol_blockhash env with
  | inl e => inl (String.append "failed to get latest blockhash: " e)
  | inr _ =>
  match sol_build_err env with
  | Some e => inl (String.append "failed to create transaction: " e)
  | None =>
  match sol_sign_err env with
  | Some e => inl (String.append "failed to sign transaction: " e)
  | None =>
  match sol_send env with
  | inl e => inl (String.append "failed to send transaction: " e)
  | inr sig => inr sig
  end end end end end.

Inductive ConfirmationStatus := Processed | Confirmed | Finalized.

(** One answer of [GetSignatureStatuses]: an RPC error, an empty or nil
    [status.Value[0]], or a status with its [ConfirmationStatus] and
    [Err] field. *)
Inductive SigStatusAnswer :=
  | RpcError
  | NoStatus
  | StatusOf (cs : ConfirmationStatus) (err : option string).

Definition is_finalized (cs : ConfirmationStatus) : bool :=
  match cs with Finalized => true | _ => false end.

(** The body of the [for]/[select] loop, one ticker tick per round.
    [polls i] is the RPC's answer at the i-th tick. *)
Fixpoint confirmation_loop (fuel : nat) (i : nat) (polls : nat -> SigStatusAnswer)
    : bool * option string :=
  match fuel with
  | O => (false, Some "confirmation timeout")
  | S fuel' =>
      match polls i with
      | RpcError | NoStatus => confirmation_loop fuel' (S i) polls
      | StatusOf cs err =>
          if is_finalized cs then (true, None)
          else match err with
               | Some e => (false, Some (String.append "transaction failed: " e))
               | None => confirmation_loop fuel' (S i) polls
               end
      end
  end.

(** [waitForConfirmation(signature, timeout)] with a ticker of
    [interval_ms].  Every tick up to and including the one that falls
    at the deadline may be polled: at the deadline the tick and
    [ctx.Done()] race in the [select], and a tick selected first issues
    a last RPC whose answer counts like any other.  Once the deadline
    has passed with no tick pending, [ctx.Done()] is the only ready
    case and the result is the timeout. *)
Definition waitForConfirmation (timeout_ms interval_ms : Z) (polls : nat -> SigStatusAnswer)
    : bool * option string :=
  confirmation_loop (Z.to_nat (timeout_ms / interval_ms)) 0 polls.

Definition CONFIRM_TIMEOUT_MS : Z := 30000.
Definition CONFIRM_INTERVAL_MS : Z := 2000.

(** Faults of the worker's store statements: creating the record (the
    only one whose error is checked), updating the record, re-crediting
    the validator.  The last two run outside any transaction and their
    errors are ignored. *)
Record WorkerFaults := mkWorkerFaults {
  wf_create : bool;
  wf_mark : bool;
  wf_refund : bool
}.

Definition no_worker_faults : WorkerFaults := mkWorkerFaults false false false.

Definition db_put_payout (r : PayoutTransaction) (db : DB) : DB :=
  mkDB (db_websites db) (db_validators db) (db_ticks db) (<[p_ID r := r]> (db_payouts db)).

(** [w.db.Model(txRecord).Updates(...)]: the statement is skipped when
    the store fails it. *)
Definition mark_payout (failed_stmt : bool) (r : PayoutTransaction) (db : DB) : DB :=
  if failed_stmt then db else db_put_payout r db.

Definition with_status (r : PayoutTransaction) (status sig err : string) : PayoutTransaction :=
  mkPayoutTx (p_ID r) (p_ValidatorID r) (p_Amount r) status sig err.

(** [processPayoutRequest(delivery)]; [rec_id] is the record's
    [uuid.New()]. *)
Definition processPayoutRequest (rec_id : string) (wf : WorkerFaults) (env : SolanaEnv)
    (polls : nat -> SigStatusAnswer) (body : PayoutBody) (db : DB)
    : DB * DeliveryAction :=
  match body with
  | BodyMalformed => (db, Nacked false)
  | BodyPayout req =>
      let txRecord := mkPayoutTx rec_id (pr_ValidatorID req) (pr_Amount req)
                                 "processing" "" "" in
      if wf_create wf || bool_decide (is_Some (db_payouts db !! rec_id))
      then (db, Nacked true)
      else
        let db1 := db_put_payout txRecord db in
        match executeSolanaTransfer env (pr_PublicKey req) (pr_Amount req) with
        | inl err =>
            let db2 := mark_payout (wf_mark wf)
                         (with_status txRecord "failed" "" err) db1 in
            let db3 := if wf_refund wf then db2
                       else db_add_pending (pr_ValidatorID req) (pr_Amount req) db2 in
            (db3, Nacked false)
        | inr signature =>
            let '(confirmed, err) :=
              waitForConfirmation CONFIRM_TIMEOUT_MS CONFIRM_INTERVAL_MS polls in
            if bool_decide (is_Some err) || negb confirmed then
              (mark_payout (wf_mark wf)
                 (with_status txRecord "failed" signature
                    "Transaction confirmation timeout") db1, Nacked false)
            else
              (mark_payout (wf_mark wf)
                 (with_status txRecord "completed" signature "") db1, Acked)
        end
  end.

(* ------------------------------------------------------------------ *)
(** ** Validator agent ([cmd/api/main.go], [validateWebsite]) *)

Record ValidateData := mkValidateData {
  vd_URL : string;
  vd_CallbackID : string;
  vd_WebsiteID : string
}.

(** How the server side of the GET behaves: a final response with its
    status code after [d] ns, or a transport error after [d] ns
    (durations on the monotonic clock, hence in N). *)
Inductive GetOutcome :=
  | ServerResponds (code : Z) (d : N)
  | TransportError (d : N).

Record HttpRequest := mkHttpRequest {
  req_method : string;
  req_url : string;
  req_timeout_ns : N
}.

(** [http.Client{Timeout}.Get]: the response, if it arrived before the
    deadline, and the time at which [Get] returned.  When the deadline
    passes first, [Get] returns only after the client's timer has fired
    and the request has been cancelled: [late] ns after the deadline, a
    delay of the runtime that nothing bounds. *)
Definition client_get (timeout late : N) (o : GetOutcome) : option Z * N :=
  match o with
  | ServerResponds code d =>
      if (d <? timeout)%N then (Some code, d) else (None, timeout + late)%N
  | TransportError d =>
      if (d <? timeout)%N then (None, d) else (None, timeout + late)%N
  end.

Definition SECOND_NS : N := 1000000000.
Definition VALIDATE_TIMEOUT_NS : N := 10 * SECOND_NS.

Record ValidateReply := mkValidateReply {
  rp_callbackId : string;
  rp_status : string;
  rp_latency : Z;
  rp_validatorId : string;
  rp_websiteId : string;
  rp_signedMessage : string
}.

(** [validateWebsite(data)]: the request issued and the reply sent.
    [time.Since(startTime).Milliseconds()] truncates the elapsed
    nanoseconds to milliseconds. [signMessage] is the agent's ed25519
    signing, base64-encoded; [late] is the overrun of [Get] past its
    deadline (see [client_get]). *)
Definition validateWebsite (signMessage : string -> string) (validatorID : string)
    (data : ValidateData) (o : GetOutcome) (late : N) : HttpRequest * ValidateReply :=
  let request := mkHttpRequest "GET" (vd_URL data) VALIDATE_TIMEOUT_NS in
  let '(resp, elapsed) := client_get (req_timeout_ns request) late o in
  let latency := Z.of_N (elapsed / 1000000)%N in
  let status := match resp with
                | Some code => if code =? 200 then "Good" else "Bad"
                | None => "Bad"
                end in
  let signature := signMessage (String.append "Replying to " (vd_CallbackID data)) in
  (request, mkValidateReply (vd_CallbackID data) status latency validatorID
                            (vd_WebsiteID data) signature).

(* ------------------------------------------------------------------ *)
(** ** Hub connection lifecycle ([handleSignup], [removeValidator],
    [handleWebSocket] in [cmd/hub/main.go]) *)

(** [handleSignup(conn, data)] after decoding: the store effect of
    [handleSignup_db], then [h.validators[validator.ID] = &ValidatorConnection{...}]
    and the reply [{validatorId, callbackId}] written on [conn] (a write
    error is only logged).  The signature is not checked (TODO in the
    source). *)
Definition handleSignup (conn : nat) (new_id : string) (fx_find fx_create_v : bool)
    (signup : SignupIncoming) (h : Hub) : Hub * option (string * string) :=
  let '(db', ov) := handleSignup_db new_id fx_find fx_create_v signup (h_db h) in
  match ov with
  | None => (mkHub db' (h_validators h) (h_callbacks h) (h_next_uuid h) (h_trace h), None)
  | Some validator =>
      (mkHub db' (<[v_ID validator := mkVC (v_ID validator) (v_PublicKey validator) conn]>
                    (h_validators h))
             (h_callbacks h) (h_next_uuid h) (h_trace h),
       Some (v_ID validator, si_CallbackID signup))
  end.

(** [removeValidator(conn)]: the first entry met in the map iteration
    whose connection is [conn] is deleted ([break]).  Go's iteration order
    is unspecified; the model iterates in [map_to_list] order, and the
    properties proved below hold whatever entry is met first. *)
Definition removeValidator (conn : nat) (h : Hub) : Hub :=
  match List.find (fun kv => Nat.eqb (vc_Conn (snd kv)) conn) (map_to_list (h_validators h)) with
  | Some (id, _) =>
      mkHub (h_db h) (delete id (h_validators h)) (h_callbacks h) (h_next_uuid h) (h_trace h)
  | None => h
  end.

(** What the handlers called for one frame need from the environment:
    the fresh ids they generate and the store's faults. *)
Record FrameEnv := mkFrameEnv {
  fe_new_id : string;
  fe_fx_find : bool;
  fe_fx_create : bool;
  fe_tick_id : string;
  fe_fx : TxFaults
}.

(** One [conn.ReadMessage()] result: a read error, bytes that do not
    decode as an envelope, or an envelope with its [type] and its [data]
    as seen by the signup decoder ([None]: [json.Unmarshal] fails) and by
    the validate decoder. *)
Inductive Frame :=
  | FReadError
  | FUnparsable
  | FMessage (type : string) (signup_view : option SignupIncoming) (data : RawMessage)
             (env : FrameEnv).

(** The read loop of [handleWebSocket] for the connection [conn]. *)
Fixpoint handleWebSocket (conn : nat) (frames : list Frame) (h : Hub) : Hub :=
  match frames with
  | [] => h
  | FReadError :: _ => removeValidator conn h
  | FUnparsable :: frames' => handleWebSocket conn frames' h
  | FMessage ty sv data env :: frames' =>
      let h' :=
        if String.eqb ty "signup" then
          match sv with
          | Some s => fst (handleSignup conn (fe_new_id env) (fe_fx_find env)
                             (fe_fx_create env) s h)
          | None => h
          end
        else if String.eqb ty "validate" then
          handleValidate (fe_tick_id env) (fe_fx env) data h
        else h in
      handleWebSocket conn frames' h'
  end.

(** Store invariants kept by the hub's writers: every Validator row is
    stored under its own id, and no two rows share a public key (the
    column has [uniqueIndex]). *)
Definition validators_well_keyed (db : DB) : Prop :=
  forall k v, db_validators db !! k = Some v -> v_ID v = k.

Definition public_keys_unique (db : DB) : Prop :=
  forall k1 k2 v1 v2, db_validators db !! k1 = Some v1 -> db_validators db !! k2 = Some v2 ->
    v_PublicKey v1 = v_PublicKey v2 -> k1 = k2.

(* ------------------------------------------------------------------ *)
(** ** Validator agent signup ([signup], [handleSignupResponse] in
    [cmd/api/main.go]) *)

(** The agent's state: its public key, the id the hub gave it, and its
    one-shot callback table (all entries are the signup callback). *)
Record Agent := mkAgent {
  ag_publicKey : string;
  ag_validatorID : string;
  ag_callbacks : gmap string unit
}.

(** [signup()]: register the callback under a fresh [callbackID] and
    send [{callbackId, ip, publicKey, signedMessage}]. *)
Definition agent_signup (signMessage : string -> string) (callbackID : string) (a : Agent)
    : Agent * SignupIncoming :=
  let message := String.append "Signed message for "
                   (String.append callbackID (String.append ", " (ag_publicKey a))) in
  (mkAgent (ag_publicKey a) (ag_validatorID a) (<[callbackID := tt]> (ag_callbacks a)),
   mkSignupIncoming "127.0.0.1" (ag_publicKey a) (signMessage message) callbackID).

(** [handleSignupResponse(data)] on the hub's [{validatorId, callbackId}]:
    the callback stores the id, then it is deleted. *)
Definition handleSignupResponse (validatorId callbackId : string) (a : Agent) : Agent :=
  match ag_callbacks a !! callbackId with
  | Some _ => mkAgent (ag_publicKey a) validatorId (delete callbackId (ag_callbacks a))
  | None => a
  end.

(* ------------------------------------------------------------------ *)
(** ** Target management ([internal/handlers/website/handler.go]) *)

Inductive WebResponse :=
  | WebError (code : Z) (message : string)
  | WebCreated (id url : string)
  | WebOk (message : string).

(** [CreateWebsite]: [userID] is the value the auth middleware stored
    ([None]: not set); [bound] is [ShouldBindJSON]'s result (error text
    or the validated URL); [new_id] is the [uuid.New()]; [fx_create] a
    store error of [Create]. *)
Definition CreateWebsite (userID : option string) (bound : string + string)
    (new_id : string) (fx_create : bool) (db : DB) : WebResponse * DB :=
  match userID with
  | None => (WebError 401 "User not authenticated", db)
  | Some uid =>
      match bound with
      | inl err => (WebError 400 (String.append "Invalid request: " err), db)
      | inr url =>
          let website := mkWebsite new_id url uid false in
          if fx_create || bool_decide (is_Some (db_websites db !! new_id))
          then (WebError 500 "Failed to create website", db)
          else (WebCreated new_id url,
                mkDB (<[new_id := website]> (db_websites db)) (db_validators db)
                     (db_ticks db) (db_payouts db))
      end
  end.

Definition disable (w : Website) : Website :=
  mkWebsite (w_ID w) (w_URL w) (w_UserID w) true.

(** [DeleteWebsite]: soft delete, [UPDATE ... SET disabled = true WHERE
    id = ? AND user_id = ?]; rows are stored under their primary key, so
    at most one row matches, and PostgreSQL counts a matched row as
    affected even if it was already disabled. *)
Definition DeleteWebsite (userID : string) (bound : option string) (fx_update : bool)
    (db : DB) : WebResponse * DB :=
  match bound with
  | None => (WebError 400 "Invalid request", db)
  | Some websiteID =>
      if fx_update then (WebError 500 "Failed to delete website", db) else
      match db_websites db !! websiteID with
      | Some w =>
          if bool_decide (w_UserID w = userID) then
            (WebOk "Website deleted successfully",
             mkDB (<[websiteID := disable w]> (db_websites db)) (db_validators db)
                  (db_ticks db) (db_payouts db))
          else (WebError 404 "Website not found", db)
      | None => (WebError 404 "Website not found", db)
      end
  end.

Definition websites_well_keyed (db : DB) : Prop :=
  forall k w, db_websites db !! k = Some w -> w_ID w = k.

(* ------------------------------------------------------------------ *)
(** ** Authentication ([internal/middleware/auth.go]) *)

(** [strings.TrimPrefix(s, prefix)] *)
Definition TrimPrefix (s prefix : string) : string :=
  if String.prefix prefix s
  then String.substring (String.length prefix) (String.length s - String.length prefix)%nat s
  else s.

Inductive AuthResult :=
  | AuthAbort (code : Z) (message : string)
  | AuthNext (userID : string).

(** [AuthMiddleware(jwtSecret)] on one request; [VerifyJWT] is
    [utils.VerifyJWT(_, jwtSecret)] (error text or the [sub] claim). *)
Definition AuthMiddleware (VerifyJWT : string -> string + string) (authHeader : string)
    : AuthResult :=
  if String.eqb authHeader "" then AuthAbort 401 "Authorization header required" else
  let token := TrimPrefix authHeader "Bearer " in
  let token := if String.eqb token authHeader then authHeader else token in
  match VerifyJWT token with
  | inl err => AuthAbort 401 (String.append "Invalid token: " err)
  | inr userID => AuthNext userID
  end.

(* ------------------------------------------------------------------ *)
(** ** Accounts ([Signup], [Login] in [internal/handlers/user/handler.go]) *)

Record User := mkUser {
  u_ID : string;
  u_Email : string;
  u_Password : string
}.

Inductive AccountResponse :=
  | AccError (code : Z) (message : string)
  | AccToken (code : Z) (token : string) (id : string) (email : string).

Definition find_user_by_email (email : string) (users : gmap string User) : option User :=
  head (filter (fun u => u_Email u = email) (map snd (map_to_list users))).

(** The claims [GenerateJWT] signs ([utils/jwt.go]). *)
Record JwtClaims := mkJwtClaims {
  jwt_sub : string;
  jwt_exp : Z;
  jwt_iat : Z
}.

(** [utils.GenerateJWT(userID, secret)]: [sub] is the user id, [exp]
    comes from one reading of [time.Now()] plus 24 hours and [iat] from
    a second reading (Unix seconds [now_exp] and [now_iat]); [sign] is
    the HS256 signing with the secret (error or token). *)
Definition GenerateJWT (sign : JwtClaims -> string + string) (now_exp now_iat : Z)
    (userID : string) : string + string :=
  sign (mkJwtClaims userID (now_exp + 24 * 3600) now_iat).

Section Accounts.

(** [bcrypt.GenerateFromPassword] (salt, password: error or hash),
    [bcrypt.CompareHashAndPassword] (hash, password: match) and the
    HS256 signing with [cfg.JWTSecret] used by [GenerateJWT]. *)
Variable bcrypt_generate : string -> string -> string + string.
Variable bcrypt_compare : string -> string -> bool.
Variable jwt_sign : JwtClaims -> string + string.

(** [Signup]: [bound] is the bound [{email, password}] or the binding
    error; [fx_find] an error of the existence query other than "not
    found" (the code then goes on as if the email were free); [fx_create]
    an error of [Create].  The [User] table has [uniqueIndex] on email.
    [now_exp] and [now_iat] are the clock readings of [GenerateJWT]. *)
Definition Signup (bound : string + (string * string)) (new_id salt : string)
    (now_exp now_iat : Z) (fx_find fx_create : bool) (users : gmap string User)
    : AccountResponse * gmap string User :=
  match bound with
  | inl err => (AccError 400 err, users)
  | inr (email, password) =>
      if negb fx_find && bool_decide (is_Some (find_user_by_email email users))
      then (AccError 409 "User already exists", users) else
      match bcrypt_generate salt password with
      | inl _ => (AccError 500 "Failed to hash password", users)
      | inr hashed =>
          let user := mkUser new_id email hashed in
          if fx_create || bool_decide (is_Some (users !! new_id))
                       || bool_decide (is_Some (find_user_by_email email users))
          then (AccError 500 "Failed to create user", users) else
          let users' := <[new_id := user]> users in
          match GenerateJWT jwt_sign now_exp now_iat new_id with
          | inl _ => (AccError 500 "Failed to generate token", users')
          | inr token => (AccToken 201 token new_id email, users')
          end
      end
  end.

(** [Login]; [fx_find] is any error of the lookup query; [now_exp] and
    [now_iat] are the clock readings of [GenerateJWT]. *)
Definition Login (bound : string + (string * string)) (now_exp now_iat : Z) (fx_find : bool)
    (users : gmap string User) : AccountResponse :=
  match bound with
  | inl err => AccError 400 err
  | inr (email, password) =>
      match (if fx_find then None else find_user_by_email email users) with
      | None => AccError 401 "Invalid credentials"
      | Some user =>
          if negb (bcrypt_compare (u_Password user) password)
          then AccError 401 "Invalid credentials" else
          match GenerateJWT jwt_sign now_exp now_iat (u_ID user) with
          | inl _ => AccError 500 "Failed to generate token"
          | inr token => AccToken 200 token (u_ID user) (u_Email user)
          end
      end
  end.

End Accounts.

Definition emails_unique (users : gmap string User) : Prop :=
  forall k1 k2 u1 u2, users !! k1 = Some u1 -> users !! k2 = Some u2 ->
    u_Email u1 = u_Email u2 -> k1 = k2.

(* ------------------------------------------------------------------ *)
(** ** Worker observations *)

(** A status answer on which the polling loop keeps going. *)
Definition poll_continues (a : SigStatusAnswer) : bool :=
  match a with
  | RpcError | NoStatus => true
  | StatusOf cs err =>
      negb (is_finalized cs) && match err with None => true | Some _ => false end
  end.

(* ------------------------------------------------------------------ *)
(** ** Sample inputs for examples, witnesses and counterexamples *)

(** A small store used by the examples and witnesses. *)
Definition site1 : Website := mkWebsite "w1" "https://example.com" "u1" false.
Definition val1 : Validator := mkValidator "v1" "pk1" "unknown" "10.0.0.1" 0.
Definition val2 : Validator := mkValidator "v2" "pk2" "unknown" "10.0.0.2" 0.
Definition db_sample : DB :=
  mkDB {[ "w1" := site1 ]} (<[ "v2" := val2 ]> {[ "v1" := val1 ]}) [] ∅.
Definition reply_of (cb vid : string) : ValidateIncoming :=
  mkValidateIncoming cb "Good" 120 vid "w1" "sig".

(** A store reached from [db_sample] by one committed reply of "v1". *)
Definition db_after_reply : DB :=
  createValidateCallback "w1" "pk1" "t1" no_faults
    (mkIncoming "validate" (RawValidate (reply_of "c1" "v1"))) db_sample.

Definition hub_sample : Hub :=
  mkHub db_sample ∅ {[ "c1" := mkCallback "w1" "pk1" ]} 0 [].

Definition val1_100 : Validator := mkValidator "v1" "pk1" "unknown" "10.0.0.1" 100.
Definition db_credit100 : DB :=
  mkDB {[ "w1" := site1 ]} {[ "v1" := val1_100 ]} [] ∅.

(** Ledger answers: the send fails; the send succeeds with "sig1". *)
Definition env_send_fails : SolanaEnv :=
  mkSolanaEnv None (inr "hash") None None (inl "connection refused").
Definition env_send_ok : SolanaEnv :=
  mkSolanaEnv None (inr "hash") None None (inr "sig1").

(** Signature-status answers: never seen; finalized with an on-chain
    error; confirmed with an on-chain error. *)
Definition polls_silent : nat -> SigStatusAnswer := fun _ => NoStatus.
Definition polls_finalized_err : nat -> SigStatusAnswer :=
  fun _ => StatusOf Finalized (Some "InstructionError").
Definition polls_confirmed_err : nat -> SigStatusAnswer :=
  fun _ => StatusOf Confirmed (Some "InstructionError").

(** Registry with "v1" connected on connection 1; a signup for "pk1"
    carrying a signature that was never made with its key. *)
Definition hub_reg : Hub :=
  mkHub db_sample {[ "v1" := mkVC "v1" "pk1" 1 ]} ∅ 0 [].
Definition signup_pk1 : SignupIncoming := mkSignupIncoming "10.0.0.9" "pk1" "forged" "cb7".
Definition agent_new : Agent := mkAgent "pk9" "" ∅.
Definition sign_stub (m : string) : string := String.append "sig:" m.
Definition frame_env0 : FrameEnv := mkFrameEnv "n1" false false "t1" no_faults.

(** Signature statuses: finalized at the first poll. *)
Definition polls_finalized : nat -> SigStatusAnswer := fun _ => StatusOf Finalized None.

(** Account-side stubs: a "hash" that prefixes the password, the
    matching comparison, and a token that names the user id and the
    issue time. *)
Definition bcrypt_stub (salt password : string) : string + string :=
  inr (String.append "h:" password).
Definition compare_stub (hash password : string) : bool :=
  String.eqb hash (String.append "h:" password).
Definition jwt_stub (c : JwtClaims) : string + string :=
  inr (String.append "tok:" (String.append (jwt_sub c) (if jwt_iat c =? 1000 then "@1000" else "@other"))).
Definition verify_stub (token : string) : string + string :=
  if String.eqb token "tok:u1" then inr "u1" else inl "signature is invalid".
Definition users_sample : gmap string User := {[ "u1" := mkUser "u1" "a@x.io" "h:pw" ]}.

(* ================================================================== *)
(** * Properties *)


Example callback_sample :
  let db' := createValidateCallback "w1" "pk1" "t1" no_faults
               (mkIncoming "validate" (RawValidate (reply_of "c1" "v1"))) db_sample in
  credit_of "v1" db' = 100 /\ tick_count "v1" db' = 1%nat.
Proof. vm_compute. split; reflexivity. Qed.

(** ** The probe-reply callback *)

Section CallbackFacts.

(** Case analysis of one run of the callback: nothing committed, or the
    tick and the increment committed together. *)
Lemma callback_cases wid pk tid fx msg db :
  createValidateCallback wid pk tid fx msg db = db \/
  exists validate,
    unmarshal_validate (im_Data msg) = Some validate /\
    tick_insertable (mkTick tid wid (vi_ValidatorID validate) (vi_Status validate)
                            (vi_Latency validate)) db = true /\
    createValidateCallback wid pk tid fx msg db =
      db_add_pending (vi_ValidatorID validate) COST_PER_VALIDATION
        (db_insert_tick (mkTick tid wid (vi_ValidatorID validate) (vi_Status validate)
                                (vi_Latency validate)) db).
Proof.
  unfold createValidateCallback.
  destruct (unmarshal_validate (im_Data msg)) as [validate|]; [|by left].
  destruct (fx_create fx || negb _) eqn:E; [by left|].
  destruct (fx_update fx); [by left|].
  destruct (fx_commit fx); [by left|].
  right. exists validate. apply orb_false_iff in E as [_ E].
  apply negb_false_iff in E. auto.
Qed.

Lemma credit_of_add_pending vid v d db :
  credit_of vid (db_add_pending v d db) =
  credit_of vid db + (if bool_decide (vid = v /\ is_Some (db_validators db !! v)) then d else 0).
Proof.
  unfold credit_of, db_add_pending; simpl.
  destruct (decide (vid = v)) as [->|Hne].
  - rewrite lookup_alter_eq.
    destruct (db_validators db !! v) eqn:Hv; simpl.
    + rewrite bool_decide_true by eauto. unfold add_pending, set_pending; simpl. lia.
    + rewrite bool_decide_false; [lia|]. intros [_ HS]. by destruct HS.
  - rewrite lookup_alter_ne by congruence.
    rewrite bool_decide_false by tauto. lia.
Qed.

Lemma credit_of_insert_tick vid tick db :
  credit_of vid (db_insert_tick tick db) = credit_of vid db.
Proof. reflexivity. Qed.

Lemma tick_insertable_validator tick db :
  tick_insertable tick db = true -> is_Some (db_validators db !! t_ValidatorID tick).
Proof.
  unfold tick_insertable. intros H.
  apply andb_true_iff in H as [H _]. apply andb_true_iff in H as [_ H].
  by apply bool_decide_eq_true in H.
Qed.

Lemma callback_invariant_step wid pk tid fx msg db :
  let db' := createValidateCallback wid pk tid fx msg db in
  exists new,
    db_ticks db' = db_ticks db ++ new /\
    (forall vid, credit_of vid db' =
       credit_of vid db +
       COST_PER_VALIDATION * Z.of_nat (length (filter (fun t => t_ValidatorID t = vid) new))) /\
    (forall vid, is_Some (db_validators db !! vid) <-> is_Some (db_validators db' !! vid)).
Proof.
  simpl. destruct (callback_cases wid pk tid fx msg db) as [-> | (validate & _ & Hins & ->)].
  - exists []. rewrite app_nil_r. repeat split; try done. intros vid; simpl; lia.
  - set (tick := mkTick tid wid _ _ _) in *.
    exists [tick]. split; [reflexivity|]. split.
    + intros vid. rewrite credit_of_add_pending, credit_of_insert_tick. simpl.
      pose proof (tick_insertable_validator tick db Hins) as Hv. simpl in Hv.
      destruct (decide (t_ValidatorID tick = vid)) as [Heq|Hne].
      * rewrite bool_decide_true by (subst tick; simpl in *; subst; auto).
        rewrite filter_cons_True by exact Heq. simpl. unfold COST_PER_VALIDATION. lia.
      * rewrite bool_decide_false by (subst tick; simpl in *; intros [? _]; congruence).
        rewrite filter_cons_False by exact Hne. simpl. lia.
    + intros vid. simpl. rewrite lookup_alter_is_Some. done.
Qed.

Lemma signup_invariant_step nid f1 f2 s db :
  let db' := fst (handleSignup_db nid f1 f2 s db) in
  db_ticks db' = db_ticks db /\
  (forall vid, credit_of vid db' = credit_of vid db) /\
  (forall vid, is_Some (db_validators db !! vid) -> is_Some (db_validators db' !! vid)).
Proof.
  unfold handleSignup_db. simpl.
  destruct f1; [done|].
  destruct (find_by_public_key _ db); [done|].
  destruct (f2 || bool_decide (is_Some (db_validators db !! nid))) eqn:E; [done|].
  apply orb_false_iff in E as [_ E]. apply bool_decide_eq_false in E.
  simpl. split; [done|]. split.
  - intros vid. unfold credit_of; simpl.
    destruct (decide (nid = vid)) as [<-|Hne].
    + rewrite lookup_insert_eq. simpl.
      destruct (db_validators db !! nid) eqn:Hn; [exfalso; apply E; eauto|done].
    + by rewrite lookup_insert_ne.
  - intros vid Hv. rewrite lookup_insert_is_Some'. auto.
Qed.

(** Over any run of the hub's store writers, every validator's credit
    moved by exactly [COST_PER_VALIDATION] per Result row it gained. *)
Lemma hub_reachable_accounting db0 db :
  hub_reachable db0 db ->
  exists new,
    db_ticks db = db_ticks db0 ++ new /\
    forall vid, credit_of vid db =
      credit_of vid db0 +
      COST_PER_VALIDATION * Z.of_nat (length (filter (fun t => t_ValidatorID t = vid) new)).
Proof.
  induction 1 as [| db wid pk tid fx msg _ IH | db nid f1 f2 s _ IH].
  - exists []. rewrite app_nil_r. split; [done|]. intros vid; simpl; lia.
  - destruct IH as (new & Ht & Hc).
    destruct (callback_invariant_step wid pk tid fx msg db) as (new' & Ht' & Hc' & _).
    exists (new ++ new'). split.
    + rewrite Ht', Ht. by rewrite app_assoc.
    + intros vid. rewrite Hc', Hc, filter_app, length_app. lia.
  - destruct IH as (new & Ht & Hc).
    destruct (signup_invariant_step nid f1 f2 s db) as (Ht' & Hc' & _).
    exists new. split; [by rewrite Ht'|]. intros vid. by rewrite Hc'.
Qed.

End CallbackFacts.


(** C3: every run of the probe-reply callback either commits the Result
    row and its validator's credit increment together or changes nothing;
    hence in every store state reachable through the hub's writers, each
    validator's credit moved by exactly the fixed reward per Result row it
    gained, and by nothing else. *)
Theorem C3_result_and_credit_atomic (db0 db : DB) :
  hub_reachable db0 db ->
  (forall wid pk tid fx msg,
     createValidateCallback wid pk tid fx msg db = db \/
     exists tick,
       t_ID tick = tid /\ t_WebsiteID tick = wid /\
       is_Some (db_validators db !! t_ValidatorID tick) /\
       createValidateCallback wid pk tid fx msg db =
         db_add_pending (t_ValidatorID tick) COST_PER_VALIDATION (db_insert_tick tick db)) /\
  (exists new,
     db_ticks db = db_ticks db0 ++ new /\
     forall vid, credit_of vid db =
       credit_of vid db0 +
       COST_PER_VALIDATION * Z.of_nat (length (filter (fun t => t_ValidatorID t = vid) new))).
Proof.
  intros Hr. split; [|by apply hub_reachable_accounting].
  intros wid pk tid fx msg.
  destruct (callback_cases wid pk tid fx msg db) as [H | (validate & _ & Hins & H)];
    [by left|].
  right. exists (mkTick tid wid (vi_ValidatorID validate) (vi_Status validate)
                        (vi_Latency validate)).
  split; [reflexivity|]. split; [reflexivity|].
  split; [exact (tick_insertable_validator _ _ Hins)|exact H].
Qed.

Lemma C3_witness :
  (forall wid pk tid fx msg,
     createValidateCallback wid pk tid fx msg db_after_reply = db_after_reply \/
     exists tick,
       t_ID tick = tid /\ t_WebsiteID tick = wid /\
       is_Some (db_validators db_after_reply !! t_ValidatorID tick) /\
       createValidateCallback wid pk tid fx msg db_after_reply =
         db_add_pending (t_ValidatorID tick) COST_PER_VALIDATION
           (db_insert_tick tick db_after_reply)) /\
  (exists new,
     db_ticks db_after_reply = db_ticks db_sample ++ new /\
     forall vid, credit_of vid db_after_reply =
       credit_of vid db_sample +
       COST_PER_VALIDATION * Z.of_nat (length (filter (fun t => t_ValidatorID t = vid) new))).
Proof.
  apply (C3_result_and_credit_atomic db_sample db_after_reply).
  unfold db_after_reply. apply hr_callback. apply hr_refl.
Defined.

(** C7: from zero credit, through any run of the hub's writers (replies
    and signups, no settlement), a validator's credit is the fixed reward
    of 100 lamports times the number of Result rows recorded for it. *)
Theorem C7_credit_is_n_times_reward (db0 db : DB) (vid : string) :
  hub_reachable db0 db ->
  credit_of vid db0 = 0 ->
  COST_PER_VALIDATION = 100 /\
  credit_of vid db =
    COST_PER_VALIDATION * Z.of_nat (tick_count vid db - tick_count vid db0).
Proof.
  intros Hr H0. split; [reflexivity|].
  destruct (hub_reachable_accounting db0 db Hr) as (new & Ht & Hc).
  rewrite Hc, H0. unfold tick_count. rewrite Ht, filter_app, length_app.
  replace (length (filter (fun t => t_ValidatorID t = vid) (db_ticks db0)) +
           length (filter (fun t => t_ValidatorID t = vid) new) -
           length (filter (fun t => t_ValidatorID t = vid) (db_ticks db0)))%nat
    with (length (filter (fun t => t_ValidatorID t = vid) new)) by lia.
  lia.
Qed.

Lemma C7_witness :
  COST_PER_VALIDATION = 100 /\
  credit_of "v1" db_after_reply =
    COST_PER_VALIDATION * Z.of_nat (tick_count "v1" db_after_reply - tick_count "v1" db_sample).
Proof.
  apply (C7_credit_is_n_times_reward db_sample db_after_reply "v1").
  - unfold db_after_reply. apply hr_callback. apply hr_refl.
  - reflexivity.
Defined.

(** C10: the callback registered for the validator with public key [pk]
    records and credits the [validatorId] carried by the reply: a reply
    naming another validator credits that one, and the registered
    validator's credit is untouched. *)
Theorem C10_reply_validator_is_credited (wid pk tid : string) (data : RawMessage)
    (validate : ValidateIncoming) (db : DB) (vid_reg : string) (v_reg : Validator) :
  unmarshal_validate data = Some validate ->
  db_validators db !! vid_reg = Some v_reg ->
  v_PublicKey v_reg = pk ->
  vi_ValidatorID validate <> vid_reg ->
  tick_insertable (mkTick tid wid (vi_ValidatorID validate) (vi_Status validate)
                          (vi_Latency validate)) db = true ->
  let db' := createValidateCallback wid pk tid no_faults (mkIncoming "validate" data) db in
  db_ticks db' = db_ticks db ++ [mkTick tid wid (vi_ValidatorID validate)
                                        (vi_Status validate) (vi_Latency validate)] /\
  credit_of (vi_ValidatorID validate) db' =
    credit_of (vi_ValidatorID validate) db + COST_PER_VALIDATION /\
  credit_of vid_reg db' = credit_of vid_reg db.
Proof.
  intros Hd Hreg Hpk Hne Hins. simpl.
  unfold createValidateCallback. simpl. rewrite Hd, Hins. simpl.
  pose proof (tick_insertable_validator _ _ Hins) as Hv. simpl in Hv.
  split; [reflexivity|]. split.
  - rewrite credit_of_add_pending, credit_of_insert_tick.
    rewrite bool_decide_true by auto. reflexivity.
  - rewrite credit_of_add_pending, credit_of_insert_tick.
    rewrite bool_decide_false by (intros [? _]; congruence). lia.
Qed.

Lemma C10_witness :
  let db' := createValidateCallback "w1" "pk1" "t1" no_faults
               (mkIncoming "validate" (RawValidate (reply_of "c1" "v2"))) db_sample in
  db_ticks db' = db_ticks db_sample ++ [mkTick "t1" "w1" "v2" "Good" 120] /\
  credit_of "v2" db' = credit_of "v2" db_sample + COST_PER_VALIDATION /\
  credit_of "v1" db' = credit_of "v1" db_sample.
Proof.
  apply (C10_reply_validator_is_credited "w1" "pk1" "t1" (RawValidate (reply_of "c1" "v2"))
           (reply_of "c1" "v2") db_sample "v1" val1).
  - reflexivity.
  - reflexivity.
  - reflexivity.
  - discriminate.
  - vm_compute. reflexivity.
Defined.

(** ** The correlation table *)

Lemma handleValidate_absent (id : string) tid fx data (h : Hub) :
  h_callbacks h !! id = None ->
  h_callbacks (handleValidate tid fx data h) !! id = None /\
  count_invokes id (h_trace (handleValidate tid fx data h)) = count_invokes id (h_trace h).
Proof.
  intros Hn. unfold handleValidate.
  destruct (unmarshal_validate data) as [validate|]; [|done].
  destruct (h_callbacks h !! vi_CallbackID validate) as [cb|] eqn:Hcb; [|done].
  assert (vi_CallbackID validate <> id) as Hne by congruence.
  simpl. split.
  - by rewrite lookup_delete_ne.
  - unfold count_invokes. rewrite filter_app, length_app.
    rewrite filter_cons_False; [simpl; lia|].
    simpl. rewrite bool_decide_false by exact Hne. discriminate.
Qed.

Lemma handle_replies_absent (id : string) rs (h : Hub) :
  h_callbacks h !! id = None ->
  h_callbacks (handle_replies rs h) !! id = None /\
  count_invokes id (h_trace (handle_replies rs h)) = count_invokes id (h_trace h).
Proof.
  revert h. induction rs as [|[[tid fx] data] rs IH]; intros h Hn; simpl; [done|].
  destruct (handleValidate_absent id tid fx data h Hn) as [Hn' Hc].
  destruct (IH _ Hn') as [? Hc']. split; [done|]. by rewrite Hc', Hc.
Qed.

Lemma handleValidate_no_handler tid fx data (h : Hub) :
  (forall validate, unmarshal_validate data = Some validate ->
                    h_callbacks h !! vi_CallbackID validate = None) ->
  handleValidate tid fx data h = h.
Proof.
  intros H. unfold handleValidate.
  destruct (unmarshal_validate data) as [validate|] eqn:Hd; [|done].
  by rewrite (H validate eq_refl).
Qed.

(** C4: a reply carrying a registered correlation id runs that handler
    once, on the reply's payload, and removes the id; whatever replies the
    connection delivers afterwards, the handler has run exactly once and
    the id stays unregistered, so later replies with that id change
    nothing.  A reply whose id has no handler (or that does not decode)
    leaves the hub unchanged and raises no error. *)
Theorem C4_handler_runs_once (tid : string) (fx : TxFaults) (data : RawMessage)
    (validate : ValidateIncoming) (cb : Callback) (h : Hub) :
  unmarshal_validate data = Some validate ->
  h_callbacks h !! vi_CallbackID validate = Some cb ->
  count_invokes (vi_CallbackID validate) (h_trace h) = 0%nat ->
  let id := vi_CallbackID validate in
  let h1 := handleValidate tid fx data h in
  h_trace h1 = h_trace h ++ [EvInvoke id cb] /\
  h_db h1 = createValidateCallback (cb_websiteID cb) (cb_validatorPublicKey cb) tid fx
              (mkIncoming "validate" data) (h_db h) /\
  h_callbacks h1 = delete id (h_callbacks h) /\
  (forall rs, count_invokes id (h_trace (handle_replies rs h1)) = 1%nat /\
              h_callbacks (handle_replies rs h1) !! id = None) /\
  (forall tid' fx' data' validate', unmarshal_validate data' = Some validate' ->
     vi_CallbackID validate' = id -> handleValidate tid' fx' data' h1 = h1) /\
  (forall tid' fx' data' (h' : Hub),
     (forall v, unmarshal_validate data' = Some v -> h_callbacks h' !! vi_CallbackID v = None) ->
     handleValidate tid' fx' data' h' = h').
Proof.
  intros Hd Hcb H0.
  set (cid := vi_CallbackID validate) in *.
  set (h1 := handleValidate tid fx data h).
  assert (Heq : h1 = mkHub (createValidateCallback (cb_websiteID cb) (cb_validatorPublicKey cb)
                              tid fx (mkIncoming "validate" data) (h_db h))
                           (h_validators h) (delete cid (h_callbacks h)) (h_next_uuid h)
                           (h_trace h ++ [EvInvoke cid cb])).
  { subst h1 cid. unfold handleValidate. by rewrite Hd, Hcb. }
  assert (Hgone : h_callbacks h1 !! cid = None) by (rewrite Heq; simpl; apply lookup_delete_eq).
  split; [by rewrite Heq|]. split; [by rewrite Heq|]. split; [by rewrite Heq|].
  split; [|split].
  - intros rs. destruct (handle_replies_absent cid rs h1 Hgone) as [Hn Hc].
    split; [|done]. rewrite Hc, Heq. simpl.
    unfold count_invokes in *. rewrite filter_app, length_app, H0.
    rewrite filter_cons_True; [done|]. simpl. by rewrite bool_decide_true.
  - intros tid' fx' data' validate' Hd' Hid. apply handleValidate_no_handler.
    intros v Hv. rewrite Hd' in Hv. injection Hv as <-. by rewrite Hid.
  - intros. by apply handleValidate_no_handler.
Qed.


Lemma C4_witness :
  let h1 := handleValidate "t1" no_faults (RawValidate (reply_of "c1" "v1")) hub_sample in
  h_trace h1 = h_trace hub_sample ++ [EvInvoke "c1" (mkCallback "w1" "pk1")] /\
  h_db h1 = createValidateCallback "w1" "pk1" "t1" no_faults
              (mkIncoming "validate" (RawValidate (reply_of "c1" "v1"))) (h_db hub_sample) /\
  h_callbacks h1 = delete "c1" (h_callbacks hub_sample) /\
  (forall rs, count_invokes "c1" (h_trace (handle_replies rs h1)) = 1%nat /\
              h_callbacks (handle_replies rs h1) !! "c1" = None) /\
  (forall tid' fx' data' validate', unmarshal_validate data' = Some validate' ->
     vi_CallbackID validate' = "c1" -> handleValidate tid' fx' data' h1 = h1) /\
  (forall tid' fx' data' (h' : Hub),
     (forall v, unmarshal_validate data' = Some v -> h_callbacks h' !! vi_CallbackID v = None) ->
     handleValidate tid' fx' data' h' = h').
Proof.
  apply (C4_handler_runs_once "t1" no_faults (RawValidate (reply_of "c1" "v1"))
           (reply_of "c1" "v1") (mkCallback "w1" "pk1") hub_sample).
  - reflexivity.
  - reflexivity.
  - reflexivity.
Defined.

(** ** The dispatch cycle *)

Section DispatchFacts.

Variable uuidNew : nat -> string.

Lemma send_to_validators_spec (w : Website) (vs : list ValidatorConnection) (h : Hub) :
  let tagged := zip (map (fun v => (w, v)) vs)
                    (map uuidNew (seq (h_next_uuid h) (length vs))) in
  let h' := send_to_validators uuidNew w vs h in
  h_trace h' = h_trace h ++ concat (map pair_events tagged) /\
  h_next_uuid h' = (h_next_uuid h + length vs)%nat /\
  h_callbacks h' = fold_left insert_callback (map pair_callback tagged) (h_callbacks h) /\
  h_db h' = h_db h /\ h_validators h' = h_validators h.
Proof.
  revert h. induction vs as [|v vs IH]; intros h; simpl.
  - rewrite app_nil_r. repeat split; lia.
  - destruct (IH (hub_emit (EvSend (vc_Conn v) (mkTask (w_URL w) (uuidNew (h_next_uuid h)) (w_ID w)))
                 (mkHub (h_db h) (h_validators h)
                    (<[uuidNew (h_next_uuid h) := mkCallback (w_ID w) (vc_PublicKey v)]> (h_callbacks h))
                    (S (h_next_uuid h))
                    (h_trace h ++ [EvRegister (uuidNew (h_next_uuid h))
                                              (mkCallback (w_ID w) (vc_PublicKey v))]))))
      as (Ht & Hn & Hc & Hd & Hv).
    simpl in *. rewrite Ht, Hn, Hc, Hd, Hv.
    repeat split.
    + rewrite <- !app_assoc. reflexivity.
    + lia.
Qed.

Lemma dispatch_pairs_cons w ws vs :
  dispatch_pairs (w :: ws) vs = map (fun v => (w, v)) vs ++ dispatch_pairs ws vs.
Proof. reflexivity. Qed.

Lemma length_map_pair (w : Website) (vs : list ValidatorConnection) :
  length (map (fun v => (w, v)) vs) = length vs.
Proof. apply length_map. Qed.

Lemma send_tasks_spec (ws : list Website) (vs : list ValidatorConnection) (h : Hub) :
  let h' := send_tasks uuidNew ws vs h in
  h_trace h' = h_trace h ++ dispatch_spec_events uuidNew ws vs (h_next_uuid h) /\
  h_next_uuid h' = (h_next_uuid h + length (dispatch_pairs ws vs))%nat /\
  h_callbacks h' = dispatch_spec_callbacks uuidNew ws vs (h_next_uuid h) (h_callbacks h) /\
  h_db h' = h_db h /\ h_validators h' = h_validators h.
Proof.
  revert h. induction ws as [|w ws IH]; intros h; simpl.
  - unfold dispatch_spec_events, dispatch_spec_callbacks, dispatch_tagged; simpl.
    rewrite app_nil_r. repeat split; lia.
  - destruct (send_to_validators_spec w vs h) as (Ht1 & Hn1 & Hc1 & Hd1 & Hv1).
    destruct (IH (send_to_validators uuidNew w vs h)) as (Ht & Hn & Hc & Hd & Hv).
    unfold dispatch_spec_events, dispatch_spec_callbacks, dispatch_tagged in *.
    rewrite dispatch_pairs_cons, length_app, length_map_pair, seq_app, map_app.
    rewrite zip_with_app by (rewrite length_map, length_map, length_seq; reflexivity).
    rewrite Ht, Hn, Hc, Hd, Hv, Ht1, Hn1, Hc1, Hd1, Hv1.
    rewrite !map_app, concat_app, fold_left_app, app_assoc.
    repeat split; lia.
Qed.

Lemma dispatch_pairs_nil_r ws : dispatch_pairs ws [] = [].
Proof. induction ws; simpl; done. Qed.

Lemma tagged_nil_cases ws vs n :
  ws = [] \/ vs = [] -> dispatch_tagged uuidNew ws vs n = [].
Proof.
  intros [-> | ->]; unfold dispatch_tagged; [reflexivity|].
  rewrite dispatch_pairs_nil_r. reflexivity.
Qed.

Lemma fold_insert_callback_notin (l : list (string * Callback)) m k :
  k ∉ map fst l -> fold_left insert_callback l m !! k = m !! k.
Proof.
  revert m. induction l as [|[k' v'] l IH]; intros m Hk; simpl; [done|].
  rewrite IH by (intros Hin; apply Hk; simpl; by right).
  unfold insert_callback; simpl. rewrite lookup_insert_ne; [done|].
  intros ->. apply Hk. left.
Qed.

Lemma fold_insert_callback_in (l : list (string * Callback)) m k v :
  NoDup (map fst l) -> In (k, v) l -> fold_left insert_callback l m !! k = Some v.
Proof.
  revert m. induction l as [|[k' v'] l IH]; intros m Hnd Hin; simpl; [done|].
  simpl in Hnd. apply NoDup_cons in Hnd as [Hk' Hnd].
  destruct Hin as [Heq | Hin].
  - injection Heq as -> ->. rewrite fold_insert_callback_notin by exact Hk'.
    unfold insert_callback; simpl. apply lookup_insert_eq.
  - by apply IH.
Qed.

Lemma map_fst_pair_callback (l : list ((Website * ValidatorConnection) * string)) :
  map fst (map pair_callback l) = map snd l.
Proof. induction l as [|[[w v] id] l IH]; simpl; [done|]. by rewrite IH. Qed.

Lemma map_snd_zip {A B} (l : list A) (k : list B) :
  length l = length k -> map snd (zip l k) = k.
Proof.
  revert k. induction l as [|a l IH]; intros [|b k] Hl; simpl in *; try done.
  rewrite IH; [done|lia].
Qed.

Lemma dispatch_ids ws vs n :
  map snd (dispatch_tagged uuidNew ws vs n) =
  map uuidNew (seq n (length (dispatch_pairs ws vs))).
Proof.
  unfold dispatch_tagged. apply map_snd_zip. by rewrite length_map, length_seq.
Qed.

Lemma dispatch_ids_nodup ws vs n :
  Inj eq eq uuidNew -> NoDup (map snd (dispatch_tagged uuidNew ws vs n)).
Proof.
  intros Hinj. rewrite dispatch_ids.
  generalize n. induction (length (dispatch_pairs ws vs)) as [|len IH]; intros m;
    simpl; [constructor|].
  apply NoDup_cons. split; [|apply IH].
  rewrite list_elem_of_In, in_map_iff. intros (x & Hx & Hin).
  apply Hinj in Hx. subst x. apply in_seq in Hin. lia.
Qed.

End DispatchFacts.

Lemma length_dispatch_pairs ws vs :
  length (dispatch_pairs ws vs) = (length ws * length vs)%nat.
Proof.
  induction ws as [|w ws IH]; [reflexivity|].
  rewrite dispatch_pairs_cons, length_app, length_map_pair, IH. simpl. lia.
Qed.

Lemma in_values_iff {A} (m : gmap string A) (x : A) :
  In x (map snd (map_to_list m)) <-> exists k, m !! k = Some x.
Proof.
  rewrite in_map_iff. split.
  - intros ([k y] & <- & Hin). exists k. simpl.
    apply elem_of_map_to_list. by apply list_elem_of_In.
  - intros (k & Hk). exists (k, x). split; [done|].
    apply list_elem_of_In. by apply elem_of_map_to_list.
Qed.

(** C9: one cycle of the dispatch loop snapshots the non-disabled
    targets and the connected validators; for every (target, validator)
    pair, in loop order, it takes the next fresh id, registers the handler
    for that target and validator's key under it and then sends exactly one
    task {url, callbackId, websiteId} on that validator's connection.  With
    no active target or no connected validator it does nothing.  Distinct
    [uuid.New()] results give distinct ids, and each id ends up holding its
    own pair's handler. *)
Theorem C9_dispatch_cycle (uuidNew : nat -> string) (h : Hub) :
  let ws := active_websites (h_db h) in
  let vs := snapshot_validators h in
  let h' := monitoring_cycle uuidNew false h in
  let tagged := dispatch_tagged uuidNew ws vs (h_next_uuid h) in
  (forall w, In w ws <-> (exists k, db_websites (h_db h) !! k = Some w) /\ w_Disabled w = false) /\
  (forall v, In v vs <-> exists k, h_validators h !! k = Some v) /\
  map fst tagged = dispatch_pairs ws vs /\
  length tagged = (length ws * length vs)%nat /\
  h_trace h' = h_trace h ++ concat (map pair_events tagged) /\
  h_callbacks h' = fold_left insert_callback (map pair_callback tagged) (h_callbacks h) /\
  h_db h' = h_db h /\ h_validators h' = h_validators h /\
  (ws = [] \/ vs = [] -> h' = h) /\
  (Inj eq eq uuidNew ->
     NoDup (map snd tagged) /\
     forall p cid, In (p, cid) tagged -> h_callbacks h' !! cid = Some (snd (pair_callback (p, cid)))).
Proof.
  intros ws vs h' tagged.
  assert (Hmf : map fst tagged = dispatch_pairs ws vs).
  { subst tagged. unfold dispatch_tagged. generalize (h_next_uuid h).
    induction (dispatch_pairs ws vs) as [|p ps IH]; intros n; simpl; [done|].
    by rewrite IH. }
  assert (Hlen : length tagged = (length ws * length vs)%nat).
  { rewrite <- length_dispatch_pairs, <- Hmf. by rewrite length_map. }
  assert (Hcore : h_trace h' = h_trace h ++ concat (map pair_events tagged) /\
                  h_callbacks h' = fold_left insert_callback (map pair_callback tagged) (h_callbacks h) /\
                  h_db h' = h_db h /\ h_validators h' = h_validators h /\
                  (ws = [] \/ vs = [] -> h' = h)).
  { subst h' tagged. unfold monitoring_cycle. fold ws vs.
    destruct ws as [|w0 ws0] eqn:Hws.
    - rewrite tagged_nil_cases by auto. simpl. rewrite app_nil_r. auto.
    - destruct vs as [|v0 vs0] eqn:Hvs.
      + rewrite tagged_nil_cases by auto. simpl. rewrite app_nil_r. auto.
      + destruct (send_tasks_spec uuidNew (w0 :: ws0) (v0 :: vs0) h) as (Ht & _ & Hc & Hd & Hv).
        repeat split; try done. intros [? | ?]; discriminate. }
  destruct Hcore as (Ht & Hc & Hd & Hv & Hempty).
  split; [|split; [|split; [done|split; [done|split; [done|split; [done|split; [done|split; [done|split; [done|]]]]]]]]].
  - intros w. subst ws. unfold active_websites.
    rewrite <- list_elem_of_In, list_elem_of_filter, list_elem_of_In, in_values_iff. tauto.
  - intros v. subst vs. unfold snapshot_validators. apply in_values_iff.
  - intros Hinj. pose proof (dispatch_ids_nodup uuidNew ws vs (h_next_uuid h) Hinj) as Hnd.
    fold tagged in Hnd. split; [done|].
    intros p cid Hin. rewrite Hc. apply fold_insert_callback_in.
    + by rewrite map_fst_pair_callback.
    + destruct p as [w v]. simpl. apply (in_map pair_callback) in Hin. exact Hin.
Qed.

Example dispatch_sample :
  h_trace (monitoring_cycle (fun n => if Nat.eqb n 0 then "id0" else "idN") false
             (mkHub db_sample {[ "v1" := mkVC "v1" "pk1" 7 ]} ∅ 0 [])) =
  [EvRegister "id0" (mkCallback "w1" "pk1");
   EvSend 7 (mkTask "https://example.com" "id0" "w1")].
Proof. vm_compute. reflexivity. Qed.

(** ** Settlement request *)



(** C1 (failing input): balance 100, [Publish] succeeds and the
    following [Update("pending_payouts", 0)] fails.  The message for 100
    is already on [payout_queue] while the rollback leaves the balance at
    100.  The same happens when only [Commit] fails. *)
Theorem C1_enqueued_without_zeroing :
  RequestPayout (mkPayoutFaults false false true false) "v1" db_credit100 [] =
    (RespError 500 "Failed to update balance", db_credit100,
     [mkPayoutRequest "v1" 100 "pk1"]) /\
  RequestPayout (mkPayoutFaults false false false true) "v1" db_credit100 [] =
    (RespError 500 "Failed to commit transaction", db_credit100,
     [mkPayoutRequest "v1" 100 "pk1"]) /\
  credit_of "v1" db_credit100 = 100.
Proof. vm_compute. repeat split. Qed.

(** C6: for a validator whose pending credit is 0, a settlement request
    answers "cleared" with amount 0, queues nothing and leaves the store
    as it was (the transaction is rolled back). *)
Theorem C6_zero_credit_noop (fx : PayoutFaults) (vid : string) (db : DB)
    (queue : list PayoutRequest) (v : Validator) :
  pf_lock fx = false ->
  db_validators db !! vid = Some v ->
  v_PendingPayouts v = 0 ->
  RequestPayout fx vid db queue =
    (RespSuccess 200 "cleared" "all payment cleared" 0, db, queue).
Proof.
  intros Hl Hv H0. unfold RequestPayout. rewrite Hl, Hv, H0. reflexivity.
Qed.

Lemma C6_witness :
  RequestPayout no_payout_faults "v1" db_sample [] =
    (RespSuccess 200 "cleared" "all payment cleared" 0, db_sample, []).
Proof.
  apply (C6_zero_credit_noop no_payout_faults "v1" db_sample [] val1).
  - reflexivity.
  - reflexivity.
  - reflexivity.
Defined.

(** ** Settlement worker *)

(** Fifteen ticks (at 2s, ..., 30s, the last at the deadline) are polled. *)
Example confirmation_poll_window :
  waitForConfirmation CONFIRM_TIMEOUT_MS CONFIRM_INTERVAL_MS
    (fun i => if Nat.eqb i 14 then StatusOf Finalized None else NoStatus) = (true, None) /\
  waitForConfirmation CONFIRM_TIMEOUT_MS CONFIRM_INTERVAL_MS
    (fun i => if Nat.eqb i 15 then StatusOf Finalized None else NoStatus) =
    (false, Some "confirmation timeout").
Proof. split; reflexivity. Qed.

Lemma credit_of_put_payout vid r db : credit_of vid (db_put_payout r db) = credit_of vid db.
Proof. reflexivity. Qed.

(** When the transfer submission fails and both of the worker's
    follow-up statements succeed, the record becomes [failed] with the
    error text, the validator's pending credit grows by the requested
    amount (every other validator's credit is unchanged) and the message
    is rejected without requeue. *)
Lemma worker_failed_submission_recredits (rec_id : string) (env : SolanaEnv)
    (polls : nat -> SigStatusAnswer) (req : PayoutRequest) (db : DB) (err : string) :
  db_payouts db !! rec_id = None ->
  executeSolanaTransfer env (pr_PublicKey req) (pr_Amount req) = inl err ->
  let '(db', act) := processPayoutRequest rec_id no_worker_faults env polls (BodyPayout req) db in
  act = Nacked false /\
  db_payouts db' !! rec_id =
    Some (mkPayoutTx rec_id (pr_ValidatorID req) (pr_Amount req) "failed" "" err) /\
  (forall vid, credit_of vid db' =
     credit_of vid db +
     (if bool_decide (vid = pr_ValidatorID req /\
                      is_Some (db_validators db !! pr_ValidatorID req))
      then pr_Amount req else 0)) /\
  db_ticks db' = db_ticks db.
Proof.
  intros Hfresh Hexec. unfold processPayoutRequest. simpl.
  rewrite Hfresh. try rewrite bool_decide_false by (intros [? ?]; discriminate).
  simpl. rewrite Hexec. simpl. split; [done|]. split.
  - simpl. apply lookup_insert_eq.
  - split; [|done]. intros vid. rewrite credit_of_add_pending. reflexivity.
Qed.

(** C2 (code bug): on a failed submission the worker marks the record
    and re-credits the validator with two separate store statements,
    outside any transaction and with their errors ignored, and then
    rejects the message for good.  A credit of 100 is queued and zeroed
    and the submission fails; then
    - if the re-credit statement fails, the record is [failed], the
      message is gone and the credit stays 0: the 100 is lost;
    - if the record update fails, the credit is back to 100 but the
      record stays [processing] for good, never reaching a terminal
      status.
    Besides, the re-credit adds the amount to the credit as it is when
    the message is processed: when a probe reply credits 100 in between,
    the credit ends at 200, not at the 100 it had before the request. *)
Theorem C2_compensation_not_transactional :
  (let '(_, dbA, q) := RequestPayout no_payout_faults "v1" db_credit100 [] in
   q = [mkPayoutRequest "v1" 100 "pk1"] /\ credit_of "v1" dbA = 0 /\
   let '(dbC, act) := processPayoutRequest "r1" (mkWorkerFaults false false true)
                        env_send_fails polls_silent
                        (BodyPayout (mkPayoutRequest "v1" 100 "pk1")) dbA in
   act = Nacked false /\ credit_of "v1" dbC = 0 /\
   option_map p_Status (db_payouts dbC !! "r1") = Some "failed") /\
  (let '(_, dbA, _) := RequestPayout no_payout_faults "v1" db_credit100 [] in
   let '(dbC, act) := processPayoutRequest "r1" (mkWorkerFaults false true false)
                        env_send_fails polls_silent
                        (BodyPayout (mkPayoutRequest "v1" 100 "pk1")) dbA in
   act = Nacked false /\ credit_of "v1" dbC = 100 /\
   option_map p_Status (db_payouts dbC !! "r1") = Some "processing") /\
  (let '(_, dbA, _) := RequestPayout no_payout_faults "v1" db_credit100 [] in
   let dbB := createValidateCallback "w1" "pk1" "t1" no_faults
                (mkIncoming "validate" (RawValidate (reply_of "c1" "v1"))) dbA in
   let '(dbC, act) := processPayoutRequest "r1" no_worker_faults env_send_fails polls_silent
                        (BodyPayout (mkPayoutRequest "v1" 100 "pk1")) dbB in
   act = Nacked false /\ credit_of "v1" db_credit100 = 100 /\ credit_of "v1" dbC = 200).
Proof. vm_compute. repeat split. Qed.

(** By design, a submitted transfer whose confirmation wait reports a
    timeout or an error is marked [failed] with its signature kept, is
    rejected without requeue, and no credit is given back. *)
Lemma worker_unconfirmed_no_refund (rec_id : string) (wf : WorkerFaults) (env : SolanaEnv)
    (polls : nat -> SigStatusAnswer) (req : PayoutRequest) (db : DB) (sig : string) :
  wf_create wf = false -> db_payouts db !! rec_id = None ->
  executeSolanaTransfer env (pr_PublicKey req) (pr_Amount req) = inr sig ->
  fst (waitForConfirmation CONFIRM_TIMEOUT_MS CONFIRM_INTERVAL_MS polls) = false ->
  let '(db', act) := processPayoutRequest rec_id wf env polls (BodyPayout req) db in
  act = Nacked false /\
  db_validators db' = db_validators db /\
  (wf_mark wf = false ->
   db_payouts db' !! rec_id =
     Some (mkPayoutTx rec_id (pr_ValidatorID req) (pr_Amount req) "failed" sig
             "Transaction confirmation timeout")).
Proof.
  intros Hc Hfresh Hexec Hw. unfold processPayoutRequest.
  rewrite Hc, Hfresh. simpl. try rewrite bool_decide_false by (intros [? ?]; discriminate).
  simpl. rewrite Hexec.
  destruct (waitForConfirmation CONFIRM_TIMEOUT_MS CONFIRM_INTERVAL_MS polls) as [confirmed e].
  simpl in Hw. subst confirmed. rewrite orb_true_r. simpl.
  unfold mark_payout. destruct (wf_mark wf); simpl.
  - split; [done|]. split; [done|]. discriminate.
  - split; [done|]. split; [done|]. intros _. apply lookup_insert_eq.
Qed.

(** C5 (failing input): the transfer is sent (signature "sig1") and the
    ledger reports it [finalized] with an on-chain error.
    [waitForConfirmation] tests [Finalized] before [Err], so it returns
    confirmed: the record is [completed] and the message acknowledged,
    where the claim requires [failed] and a rejection.  The same error
    seen at a [confirmed] status is handled as the claim says. *)
Theorem C5_finalized_error_marked_completed :
  (let '(db', act) := processPayoutRequest "r1" no_worker_faults env_send_ok polls_finalized_err
                        (BodyPayout (mkPayoutRequest "v1" 100 "pk1")) db_sample in
   act = Acked /\
   db_payouts db' !! "r1" = Some (mkPayoutTx "r1" "v1" 100 "completed" "sig1" "") /\
   credit_of "v1" db' = credit_of "v1" db_sample) /\
  (let '(db', act) := processPayoutRequest "r1" no_worker_faults env_send_ok polls_confirmed_err
                        (BodyPayout (mkPayoutRequest "v1" 100 "pk1")) db_sample in
   act = Nacked false /\
   db_payouts db' !! "r1" =
     Some (mkPayoutTx "r1" "v1" 100 "failed" "sig1" "Transaction confirmation timeout") /\
   credit_of "v1" db' = credit_of "v1" db_sample).
Proof. vm_compute. repeat split. Qed.

(** ** Validator agent probe *)

(** C8: a probe issues one GET of the task URL with a 10-second client
    timeout; the status is "Good" exactly when a response with code 200
    arrived before the timeout, "Bad" otherwise; the latency is the
    elapsed time until [Get] returned, in whole milliseconds, and is
    non-negative (on a timeout it is at least 10000 and may exceed it). *)
Theorem C8_probe_classification (signMessage : string -> string) (validatorID : string)
    (data : ValidateData) (o : GetOutcome) (late : N) :
  let '(req, reply) := validateWebsite signMessage validatorID data o late in
  req_method req = "GET" /\ req_url req = vd_URL data /\
  req_timeout_ns req = (10 * SECOND_NS)%N /\
  (rp_status reply = "Good" <->
     exists d, o = ServerResponds 200 d /\ (d < 10 * SECOND_NS)%N) /\
  (rp_status reply = "Good" \/ rp_status reply = "Bad") /\
  rp_latency reply = Z.of_N (snd (client_get (10 * SECOND_NS) late o) / 1000000) /\
  0 <= rp_latency reply /\
  rp_callbackId reply = vd_CallbackID data /\ rp_websiteId reply = vd_WebsiteID data /\
  rp_validatorId reply = validatorID.
Proof.
  unfold validateWebsite.
  destruct (client_get (req_timeout_ns (mkHttpRequest "GET" (vd_URL data) VALIDATE_TIMEOUT_NS))
              late o) as [resp elapsed] eqn:Hget.
  simpl in Hget |- *. unfold VALIDATE_TIMEOUT_NS in *. rewrite Hget. simpl.
  split; [done|]. split; [done|]. split; [done|].
  assert (Hst : (match resp with
                 | Some code => if code =? 200 then "Good" else "Bad"
                 | None => "Bad" end = "Good") <->
                exists d, o = ServerResponds 200 d /\ (d < 10 * SECOND_NS)%N).
  { destruct o as [code d | d]; simpl in Hget.
    - destruct (d <? 10 * SECOND_NS)%N eqn:E; injection Hget as <- <-.
      + apply N.ltb_lt in E. destruct (code =? 200) eqn:C.
        * apply Z.eqb_eq in C. subst. split; [eauto|done].
        * apply Z.eqb_neq in C. split; [discriminate|].
          intros (d' & Heq & _). injection Heq as -> _. lia.
      + apply N.ltb_ge in E. split; [discriminate|].
        intros (d' & Heq & Hlt). injection Heq as _ ->. lia.
    - destruct (d <? 10 * SECOND_NS)%N; injection Hget as <- <-;
        (split; [discriminate|]); intros (d' & Heq & _); discriminate. }
  split; [exact Hst|].
  split; [destruct resp as [code|]; [destruct (code =? 200); auto|auto]|].
  split; [done|]. split; [apply N2Z.is_nonneg|done].
Qed.

(* ================================================================== *)
(** * Further properties of the code *)

(** ** Lookups by a non-key column ([First] with a [WHERE] on it) *)

Section HeadFilter.

Context {A : Type} (P : A -> Prop) `{Pdec : !forall x, Decision (P x)}.

Lemma head_filter_some (l : list A) y :
  head (filter P l) = Some y -> In y l /\ P y.
Proof.
  intros H. apply head_Some_elem_of in H.
  apply list_elem_of_filter in H as [HP Hy]. split; [by apply list_elem_of_In|done].
Qed.

Lemma head_filter_none (l : list A) :
  head (filter P l) = None -> forall x, In x l -> ~ P x.
Proof.
  intros H x Hx HPx. apply head_None in H.
  assert (Hf : x ∈ filter P l) by (apply list_elem_of_filter; split; [done|by apply list_elem_of_In]).
  rewrite H in Hf. by apply not_elem_of_nil in Hf.
Qed.

Lemma head_filter_unique (l : list A) u :
  In u l -> P u -> (forall x, In x l -> P x -> x = u) -> head (filter P l) = Some u.
Proof.
  intros Hu HPu Huniq. destruct (head (filter P l)) as [y|] eqn:E.
  - apply head_filter_some in E as [Hy HPy]. f_equal. by apply Huniq.
  - exfalso. exact (head_filter_none l E u Hu HPu).
Qed.

End HeadFilter.

Lemma find_by_public_key_some pk db v :
  find_by_public_key pk db = Some v ->
  (exists k, db_validators db !! k = Some v) /\ v_PublicKey v = pk.
Proof.
  unfold find_by_public_key. intros H. apply head_filter_some in H as [Hin HP].
  split; [by apply in_values_iff|done].
Qed.

Lemma find_by_public_key_none pk db :
  find_by_public_key pk db = None ->
  forall k v, db_validators db !! k = Some v -> v_PublicKey v <> pk.
Proof.
  unfold find_by_public_key. intros H k v Hk.
  apply (head_filter_none _ _ H). apply in_values_iff. eauto.
Qed.

Lemma find_by_public_key_unique pk db k v :
  public_keys_unique db -> db_validators db !! k = Some v -> v_PublicKey v = pk ->
  find_by_public_key pk db = Some v.
Proof.
  intros Hu Hk Hpk. unfold find_by_public_key. apply head_filter_unique.
  - apply in_values_iff. eauto.
  - done.
  - intros x Hx Hpx. apply in_values_iff in Hx as [k' Hk'].
    assert (k' = k) as -> by (apply (Hu k' k x v); congruence). congruence.
Qed.

(** ** Validator registration and the connection registry *)

(** Store effect of a signup, with no fault on the lookup: the row
    already holding the key, or a new row with a fresh id and zero
    credit. *)
Lemma handleSignup_db_cases nid f2 s db :
  let '(db', ov) := handleSignup_db nid false f2 s db in
  (ov = None /\ db' = db) \/
  (exists v, find_by_public_key (si_PublicKey s) db = Some v /\ ov = Some v /\ db' = db) \/
  (find_by_public_key (si_PublicKey s) db = None /\ db_validators db !! nid = None /\
   ov = Some (mkValidator nid (si_PublicKey s) "unknown" (si_IP s) 0) /\
   db' = mkDB (db_websites db)
           (<[nid := mkValidator nid (si_PublicKey s) "unknown" (si_IP s) 0]> (db_validators db))
           (db_ticks db) (db_payouts db)).
Proof.
  unfold handleSignup_db. simpl.
  destruct (find_by_public_key (si_PublicKey s) db) as [v|] eqn:Hf.
  - right; left. eauto.
  - destruct (f2 || bool_decide (is_Some (db_validators db !! nid))) eqn:E; [by left|].
    apply orb_false_iff in E as [_ E]. apply bool_decide_eq_false in E.
    right; right. repeat split; try done. apply eq_None_not_Some. done.
Qed.

Lemma validators_invariant_signup nid f1 f2 s db :
  validators_well_keyed db -> public_keys_unique db ->
  validators_well_keyed (fst (handleSignup_db nid f1 f2 s db)) /\
  public_keys_unique (fst (handleSignup_db nid f1 f2 s db)).
Proof.
  intros Hw Hu. destruct f1; [done|].
  pose proof (handleSignup_db_cases nid f2 s db) as Hc.
  destruct (handleSignup_db nid false f2 s db) as [db' ov]; simpl.
  destruct Hc as [[_ ->] | [[v (_ & _ & ->)] | (Hf & Hn & _ & ->)]]; [done|done|].
  pose proof (find_by_public_key_none _ _ Hf) as Hnone. split.
  - intros k v. simpl. rewrite lookup_insert_Some.
    intros [[<- <-] | [_ Hk]]; [done|]. by apply Hw.
  - intros k1 k2 v1 v2. simpl. rewrite !lookup_insert_Some.
    intros [[<- <-] | [Hne1 H1]] [[<- <-] | [Hne2 H2]]; simpl; intros Hpk.
    + done.
    + exfalso. by apply (Hnone k2 v2 H2).
    + exfalso. by apply (Hnone k1 v1 H1).
    + by apply (Hu k1 k2 v1 v2).
Qed.

Lemma validators_invariant_callback wid pk tid fx msg db :
  validators_well_keyed db -> public_keys_unique db ->
  validators_well_keyed (createValidateCallback wid pk tid fx msg db) /\
  public_keys_unique (createValidateCallback wid pk tid fx msg db).
Proof.
  intros Hw Hu. destruct (callback_cases wid pk tid fx msg db) as [-> | (validate & _ & _ & ->)];
    [done|].
  assert (Halt : forall k v, alter (add_pending COST_PER_VALIDATION) (vi_ValidatorID validate)
                    (db_validators db) !! k = Some v ->
                  exists v0, db_validators db !! k = Some v0 /\
                    v_ID v = v_ID v0 /\ v_PublicKey v = v_PublicKey v0).
  { intros k v. rewrite lookup_alter_Some.
    intros [[_ (v0 & Hk & ->)] | [_ Hk]]; eauto. }
  unfold validators_well_keyed, public_keys_unique, db_add_pending; simpl. split.
  - intros k v Hk. destruct (Halt k v Hk) as (v0 & H0 & -> & _). by apply Hw.
  - intros k1 k2 v1 v2 H1 H2 Hpk.
    destruct (Halt k1 v1 H1) as (a & Ha & _ & Pa).
    destruct (Halt k2 v2 H2) as (b & Hb & _ & Pb).
    apply (Hu k1 k2 a b); congruence.
Qed.

Lemma hub_reachable_validators_inv (db0 db : DB) :
  hub_reachable db0 db -> validators_well_keyed db0 -> public_keys_unique db0 ->
  validators_well_keyed db /\ public_keys_unique db.
Proof.
  intros Hr Hw Hu. induction Hr as [| db wid pk tid fx msg _ IH | db nid f1 f2 s _ IH].
  - done.
  - destruct IH. by apply validators_invariant_callback.
  - destruct IH. by apply validators_invariant_signup.
Qed.

Lemma removeValidator_cases (conn : nat) (h : Hub) :
  (h_db (removeValidator conn h) = h_db h /\
   h_callbacks (removeValidator conn h) = h_callbacks h /\
   h_next_uuid (removeValidator conn h) = h_next_uuid h /\
   h_trace (removeValidator conn h) = h_trace h) /\
  ((forall id vc, h_validators h !! id = Some vc -> vc_Conn vc <> conn) /\
   h_validators (removeValidator conn h) = h_validators h \/
   exists id vc, h_validators h !! id = Some vc /\ vc_Conn vc = conn /\
     h_validators (removeValidator conn h) = delete id (h_validators h)).
Proof.
  unfold removeValidator.
  destruct (List.find _ (map_to_list (h_validators h))) as [[id vc]|] eqn:E.
  - apply find_some in E as [Hin Heq]. simpl in Heq. apply Nat.eqb_eq in Heq.
    split; [done|]. right. exists id, vc. split; [|done].
    apply elem_of_map_to_list. by apply list_elem_of_In.
  - split; [done|]. left. split; [|done]. intros id vc Hid Hc.
    pose proof (find_none _ _ E (id, vc)) as Hn. simpl in Hn.
    rewrite (proj2 (Nat.eqb_eq _ _) Hc) in Hn. discriminate Hn.
    apply list_elem_of_In. by apply elem_of_map_to_list.
Qed.

Lemma removeValidator_other (conn : nat) (h : Hub) id vc :
  h_validators h !! id = Some vc -> vc_Conn vc <> conn ->
  h_validators (removeValidator conn h) !! id = Some vc.
Proof.
  intros Hid Hc. destruct (removeValidator_cases conn h) as [_ [[_ ->] | (id' & vc' & Hid' & Hc' & ->)]];
    [done|].
  rewrite lookup_delete_ne; [done|]. intros ->. congruence.
Qed.

Lemma handleSignup_db_existing nid f2 s db k v :
  public_keys_unique db -> db_validators db !! k = Some v -> v_PublicKey v = si_PublicKey s ->
  handleSignup_db nid false f2 s db = (db, Some v).
Proof.
  intros Hu Hk Hpk. unfold handleSignup_db. simpl.
  by rewrite (find_by_public_key_unique _ _ k v Hu Hk Hpk).
Qed.

Lemma h_db_handleValidate tid fx data h :
  h_db (handleValidate tid fx data h) = h_db h \/
  exists cb, h_db (handleValidate tid fx data h) =
    createValidateCallback (cb_websiteID cb) (cb_validatorPublicKey cb) tid fx
      (mkIncoming "validate" data) (h_db h).
Proof.
  unfold handleValidate. destruct (unmarshal_validate data) as [validate|]; [|by left].
  destruct (h_callbacks h !! vi_CallbackID validate) as [cb|]; [|by left].
  right. by exists cb.
Qed.

Lemma h_db_handleSignup conn nid f1 f2 s h :
  h_db (fst (handleSignup conn nid f1 f2 s h)) = fst (handleSignup_db nid f1 f2 s (h_db h)).
Proof.
  unfold handleSignup. destruct (handleSignup_db nid f1 f2 s (h_db h)) as [db' [v|]]; done.
Qed.

Lemma handleWebSocket_reachable (db0 : DB) conn frames (h : Hub) :
  hub_reachable db0 (h_db h) -> hub_reachable db0 (h_db (handleWebSocket conn frames h)).
Proof.
  revert h. induction frames as [|f frames IH]; intros h Hr; [done|].
  destruct f as [| | ty sv data env]; simpl.
  - by rewrite (proj1 (proj1 (removeValidator_cases conn h))).
  - by apply IH.
  - apply IH.
    destruct (String.eqb ty "signup").
    + destruct sv as [s|]; [|done]. rewrite h_db_handleSignup. by apply hr_signup.
    + destruct (String.eqb ty "validate"); [|done].
      destruct (h_db_handleValidate (fe_tick_id env) (fe_fx env) data h) as [-> | [cb ->]];
        [done|].
      by apply hr_callback.
Qed.

Lemma db_sample_invariants : validators_well_keyed db_sample /\ public_keys_unique db_sample.
Proof.
  assert (Hcases : forall k v, db_validators db_sample !! k = Some v ->
            (k = "v2" /\ v = val2) \/ (k = "v1" /\ v = val1)).
  { intros k v H. cbn [db_validators db_sample] in H.
    apply lookup_insert_Some in H as [[<- <-] | [_ H]]; [by left|].
    apply lookup_singleton_Some in H as [<- <-]. by right. }
  split.
  - intros k v H. destruct (Hcases k v H) as [[-> ->] | [-> ->]]; reflexivity.
  - intros k1 k2 v1 v2 H1 H2 Hpk.
    destruct (Hcases k1 v1 H1) as [[-> ->] | [-> ->]];
    destruct (Hcases k2 v2 H2) as [[-> ->] | [-> ->]]; done.
Qed.

(** X1: a signup whose public key already has a row writes nothing to
    the store (same id, same credit, no new row), whatever the signed
    message and the generated id; it points that id's registry entry to
    the signup's connection and replies with the id and the callback id. *)
Theorem handleSignup_reconnect (conn : nat) (nid : string) (f2 : bool) (s : SignupIncoming)
    (h : Hub) (k : string) (v : Validator) :
  validators_well_keyed (h_db h) -> public_keys_unique (h_db h) ->
  db_validators (h_db h) !! k = Some v -> v_PublicKey v = si_PublicKey s ->
  handleSignup conn nid false f2 s h =
    (mkHub (h_db h) (<[k := mkVC k (v_PublicKey v) conn]> (h_validators h))
           (h_callbacks h) (h_next_uuid h) (h_trace h),
     Some (k, si_CallbackID s)).
Proof.
  intros Hw Hu Hk Hpk. unfold handleSignup.
  rewrite (handleSignup_db_existing nid f2 s (h_db h) k v Hu Hk Hpk).
  by rewrite (Hw k v Hk).
Qed.

Lemma handleSignup_reconnect_witness :
  handleSignup 2 "n1" false false signup_pk1 hub_reg =
    (mkHub db_sample (<[ "v1" := mkVC "v1" "pk1" 2 ]> {[ "v1" := mkVC "v1" "pk1" 1 ]}) ∅ 0 [],
     Some ("v1", "cb7")).
Proof.
  destruct db_sample_invariants as [Hw Hu].
  apply (handleSignup_reconnect 2 "n1" false signup_pk1 hub_reg "v1" val1 Hw Hu);
    reflexivity.
Defined.

(** X2: [removeValidator conn] changes only the registry: if no entry is
    on [conn] nothing changes, otherwise exactly one entry on [conn] is
    deleted; every entry on another connection is kept. *)
Theorem removeValidator_spec (conn : nat) (h : Hub) :
  let h' := removeValidator conn h in
  h_db h' = h_db h /\ h_callbacks h' = h_callbacks h /\ h_trace h' = h_trace h /\
  ((forall id vc, h_validators h !! id = Some vc -> vc_Conn vc <> conn) /\
   h_validators h' = h_validators h \/
   exists id vc, h_validators h !! id = Some vc /\ vc_Conn vc = conn /\
     h_validators h' = delete id (h_validators h)) /\
  (forall id vc, h_validators h !! id = Some vc -> vc_Conn vc <> conn ->
     h_validators h' !! id = Some vc).
Proof.
  simpl. destruct (removeValidator_cases conn h) as [(Hd & Hc & _ & Ht) Hcases].
  repeat split; try done. intros id vc. apply removeValidator_other.
Qed.

(** X3: when a validator reconnects on a new connection before the hub
    has seen the old one fail, the old connection's read error does not
    unregister it: its entry points to the new connection afterwards. *)
Theorem reconnect_then_old_disconnect (c_old c_new : nat) (nid : string) (f2 : bool)
    (s : SignupIncoming) (h : Hub) (k : string) (v : Validator) :
  c_old <> c_new ->
  validators_well_keyed (h_db h) -> public_keys_unique (h_db h) ->
  db_validators (h_db h) !! k = Some v -> v_PublicKey v = si_PublicKey s ->
  h_validators (removeValidator c_old (fst (handleSignup c_new nid false f2 s h))) !! k =
    Some (mkVC k (v_PublicKey v) c_new).
Proof.
  intros Hne Hw Hu Hk Hpk. apply removeValidator_other; [|simpl; congruence].
  unfold handleSignup. rewrite (handleSignup_db_existing nid f2 s (h_db h) k v Hu Hk Hpk).
  rewrite (Hw k v Hk). simpl. apply lookup_insert_eq.
Qed.

Lemma reconnect_then_old_disconnect_witness :
  h_validators (removeValidator 1 (fst (handleSignup 2 "n1" false false signup_pk1 hub_reg)))
    !! "v1" = Some (mkVC "v1" "pk1" 2).
Proof.
  destruct db_sample_invariants as [Hw Hu].
  apply (reconnect_then_old_disconnect 1 2 "n1" false signup_pk1 hub_reg "v1" val1);
    [lia | exact Hw | exact Hu | reflexivity | reflexivity].
Defined.

Lemma find_by_public_key_absent pk db :
  (forall k v, db_validators db !! k = Some v -> v_PublicKey v <> pk) ->
  find_by_public_key pk db = None.
Proof.
  intros Hn. destruct (find_by_public_key pk db) as [v|] eqn:E; [|done].
  apply find_by_public_key_some in E as [[k Hk] Hpk]. exfalso. exact (Hn k v Hk Hpk).
Qed.

(** A fault-free signup of a key with no row creates the row under the
    fresh id and registers that id on the signup's connection. *)
Lemma handleSignup_fresh conn nid s h :
  find_by_public_key (si_PublicKey s) (h_db h) = None ->
  db_validators (h_db h) !! nid = None ->
  fst (handleSignup conn nid false false s h) =
    mkHub (mkDB (db_websites (h_db h))
                (<[nid := mkValidator nid (si_PublicKey s) "unknown" (si_IP s) 0]>
                   (db_validators (h_db h)))
                (db_ticks (h_db h)) (db_payouts (h_db h)))
          (<[nid := mkVC nid (si_PublicKey s) conn]> (h_validators h))
          (h_callbacks h) (h_next_uuid h) (h_trace h).
Proof.
  intros Hf Hn. unfold handleSignup, handleSignup_db. simpl. rewrite Hf, Hn. reflexivity.
Qed.

(** X4: [removeValidator] drops only one registry entry per connection,
    while one connection may register several: after two fault-free
    signups of two new keys on the same connection, a read error on it
    leaves one of the two entries pointing to the dead connection. *)
Theorem handleWebSocket_two_signups_stale_entry (conn : nat) (s1 s2 : SignupIncoming)
    (d1 d2 : RawMessage) (env1 env2 : FrameEnv) (post : list Frame) (h : Hub) :
  fe_fx_find env1 = false -> fe_fx_create env1 = false ->
  fe_fx_find env2 = false -> fe_fx_create env2 = false ->
  fe_new_id env1 <> fe_new_id env2 -> si_PublicKey s1 <> si_PublicKey s2 ->
  find_by_public_key (si_PublicKey s1) (h_db h) = None ->
  find_by_public_key (si_PublicKey s2) (h_db h) = None ->
  db_validators (h_db h) !! fe_new_id env1 = None ->
  db_validators (h_db h) !! fe_new_id env2 = None ->
  let h' := handleWebSocket conn
              (FMessage "signup" (Some s1) d1 env1 :: FMessage "signup" (Some s2) d2 env2 ::
               FReadError :: post) h in
  h_validators h' !! fe_new_id env1 = Some (mkVC (fe_new_id env1) (si_PublicKey s1) conn) \/
  h_validators h' !! fe_new_id env2 = Some (mkVC (fe_new_id env2) (si_PublicKey s2) conn).
Proof.
  intros F1 C1 F2 C2 Hid Hpk Hf1 Hf2 Hn1 Hn2. simpl.
  rewrite F1, C1, F2, C2.
  rewrite (handleSignup_fresh conn _ s1 h Hf1 Hn1).
  set (h1 := mkHub _ _ _ _ _).
  assert (Hf2' : find_by_public_key (si_PublicKey s2) (h_db h1) = None).
  { apply find_by_public_key_absent. intros k v. simpl. rewrite lookup_insert_Some.
    intros [[_ <-] | [_ Hk]]; [simpl; congruence|].
    exact (find_by_public_key_none _ _ Hf2 k v Hk). }
  assert (Hn2' : db_validators (h_db h1) !! fe_new_id env2 = None).
  { simpl. rewrite lookup_insert_ne by congruence. done. }
  rewrite (handleSignup_fresh conn _ s2 h1 Hf2' Hn2').
  set (h2 := mkHub _ _ _ _ _).
  assert (E2 : h_validators h2 !! fe_new_id env2 = Some (mkVC (fe_new_id env2) (si_PublicKey s2) conn))
    by (simpl; apply lookup_insert_eq).
  assert (E1 : h_validators h2 !! fe_new_id env1 = Some (mkVC (fe_new_id env1) (si_PublicKey s1) conn))
    by (simpl; rewrite lookup_insert_ne by congruence; apply lookup_insert_eq).
  destruct (removeValidator_cases conn h2) as [_ [[_ ->] | (id & vc & _ & _ & ->)]];
    [by left|].
  destruct (decide (id = fe_new_id env1)) as [->|Hne].
  - right. rewrite lookup_delete_ne by congruence. exact E2.
  - left. rewrite lookup_delete_ne by congruence. exact E1.
Qed.

Lemma handleWebSocket_two_signups_stale_entry_witness :
  let h' := handleWebSocket 3
              [FMessage "signup" (Some (mkSignupIncoming "10.0.0.8" "pk8" "s8" "cb8"))
                 RawMalformed (mkFrameEnv "n8" false false "t1" no_faults);
               FMessage "signup" (Some (mkSignupIncoming "10.0.0.9" "pk9" "s9" "cb9"))
                 RawMalformed (mkFrameEnv "n9" false false "t1" no_faults);
               FReadError] hub_reg in
  h_validators h' !! "n8" = Some (mkVC "n8" "pk8" 3) \/
  h_validators h' !! "n9" = Some (mkVC "n9" "pk9" 3).
Proof.
  apply (handleWebSocket_two_signups_stale_entry 3
           (mkSignupIncoming "10.0.0.8" "pk8" "s8" "cb8")
           (mkSignupIncoming "10.0.0.9" "pk9" "s9" "cb9") RawMalformed RawMalformed
           (mkFrameEnv "n8" false false "t1" no_faults)
           (mkFrameEnv "n9" false false "t1" no_faults) [] hub_reg);
    try reflexivity; try discriminate; vm_compute; reflexivity.
Defined.

(** X5: whatever frames a connection delivers, the store changes only
    through signups and probe-reply callbacks: every validator row stays
    under its own id, public keys stay unique, Result rows are only
    appended, and each validator's credit grows by exactly
    [COST_PER_VALIDATION] per Result row it gained. *)
Theorem handleWebSocket_store_invariants (conn : nat) (frames : list Frame) (h : Hub) :
  validators_well_keyed (h_db h) -> public_keys_unique (h_db h) ->
  let db' := h_db (handleWebSocket conn frames h) in
  validators_well_keyed db' /\ public_keys_unique db' /\
  exists new, db_ticks db' = db_ticks (h_db h) ++ new /\
    forall vid, credit_of vid db' =
      credit_of vid (h_db h) +
      COST_PER_VALIDATION * Z.of_nat (length (filter (fun t => t_ValidatorID t = vid) new)).
Proof.
  intros Hw Hu. simpl.
  pose proof (handleWebSocket_reachable (h_db h) conn frames h (hr_refl _)) as Hr.
  destruct (hub_reachable_validators_inv _ _ Hr Hw Hu) as [Hw' Hu'].
  split; [done|]. split; [done|]. by apply hub_reachable_accounting.
Qed.

Lemma handleWebSocket_store_invariants_witness :
  let db' := h_db (handleWebSocket 1
               [FMessage "signup" (Some signup_pk1) RawMalformed frame_env0;
                FMessage "validate" None (RawValidate (reply_of "c1" "v1")) frame_env0]
               (mkHub db_sample ∅ {[ "c1" := mkCallback "w1" "pk1" ]} 0 [])) in
  validators_well_keyed db' /\ public_keys_unique db' /\
  exists new, db_ticks db' = db_ticks db_sample ++ new /\
    forall vid, credit_of vid db' =
      credit_of vid db_sample +
      COST_PER_VALIDATION * Z.of_nat (length (filter (fun t => t_ValidatorID t = vid) new)).
Proof.
  destruct db_sample_invariants as [Hw Hu].
  exact (handleWebSocket_store_invariants 1 _ (mkHub db_sample ∅ {[ "c1" := mkCallback "w1" "pk1" ]} 0 [])
           Hw Hu).
Defined.

(** X6: an agent's signup answered by the hub's [handleSignup] and
    handled by [handleSignupResponse]: the hub replies with the id of the
    row holding the agent's key (new or existing) and the agent's
    callback id; the agent adopts that id and drops the callback; the
    registry maps the id to the agent's connection and key. *)
Theorem agent_signup_round_trip (signMessage : string -> string) (cid : string) (a : Agent)
    (conn : nat) (nid : string) (h : Hub) :
  validators_well_keyed (h_db h) -> db_validators (h_db h) !! nid = None ->
  let '(a1, s) := agent_signup signMessage cid a in
  let '(h1, r) := handleSignup conn nid false false s h in
  exists vid, r = Some (vid, cid) /\
    ag_validatorID (handleSignupResponse vid cid a1) = vid /\
    ag_callbacks (handleSignupResponse vid cid a1) = delete cid (ag_callbacks a) /\
    h_validators h1 !! vid = Some (mkVC vid (ag_publicKey a) conn) /\
    exists v, db_validators (h_db h1) !! vid = Some v /\ v_PublicKey v = ag_publicKey a.
Proof.
  intros Hw Hn. unfold agent_signup, handleSignup, handleSignup_db. simpl.
  destruct (find_by_public_key (ag_publicKey a) (h_db h)) as [v|] eqn:Hf.
  - destruct (find_by_public_key_some _ _ _ Hf) as [[k Hk] Hpk].
    pose proof (Hw k v Hk) as Hid.
    exists (v_ID v). split; [done|].
    unfold handleSignupResponse; simpl. rewrite lookup_insert_eq. simpl.
    split; [done|]. split; [apply delete_insert_eq|].
    split; [rewrite lookup_insert_eq; congruence|].
    exists v. split; [congruence|done].
  - rewrite Hn. simpl. exists nid. split; [done|].
    unfold handleSignupResponse; simpl. rewrite lookup_insert_eq. simpl.
    split; [done|]. split; [apply delete_insert_eq|].
    split; [apply lookup_insert_eq|].
    eexists. split; [apply lookup_insert_eq|done].
Qed.

Lemma agent_signup_round_trip_witness :
  let '(a1, s) := agent_signup sign_stub "cb1" agent_new in
  let '(h1, r) := handleSignup 3 "v9" false false s hub_reg in
  exists vid, r = Some (vid, "cb1") /\
    ag_validatorID (handleSignupResponse vid "cb1" a1) = vid /\
    ag_callbacks (handleSignupResponse vid "cb1" a1) = delete "cb1" (ag_callbacks agent_new) /\
    h_validators h1 !! vid = Some (mkVC vid (ag_publicKey agent_new) 3) /\
    exists v, db_validators (h_db h1) !! vid = Some v /\ v_PublicKey v = ag_publicKey agent_new.
Proof.
  apply (agent_signup_round_trip sign_stub "cb1" agent_new 3 "v9" hub_reg).
  - exact (proj1 db_sample_invariants).
  - reflexivity.
Defined.

(** ** Settlement requests and the worker *)

Lemma db_credit100_well_keyed : validators_well_keyed db_credit100.
Proof.
  intros k v H. cbn [db_validators db_credit100] in H.
  apply lookup_singleton_Some in H as [<- <-]. reflexivity.
Qed.

Lemma credit_of_set_pending vid v p db :
  credit_of vid (db_set_pending v p db) =
  if bool_decide (vid = v /\ is_Some (db_validators db !! v)) then p else credit_of vid db.
Proof.
  unfold credit_of, db_set_pending; simpl.
  destruct (decide (vid = v)) as [->|Hne].
  - rewrite lookup_alter_eq.
    destruct (db_validators db !! v) eqn:Hv; simpl.
    + by rewrite bool_decide_true by eauto.
    + rewrite bool_decide_false; [done|]. intros [_ HS]. by destruct HS.
  - rewrite lookup_alter_ne by congruence. by rewrite bool_decide_false by tauto.
Qed.

Lemma credit_of_mark_payout vid b r db : credit_of vid (mark_payout b r db) = credit_of vid db.
Proof. by destruct b. Qed.

(** X7: a settlement request changes the store only when it answers
    "queued", and then only by zeroing the requested validator's credit.
    At most one message is published: it carries the validator's id, its
    whole positive credit and its key; once it is published the answer is
    "queued" with that amount or a 500 error with the store unchanged. *)
Theorem RequestPayout_outcomes (fx : PayoutFaults) (vid : string) (db : DB)
    (queue : list PayoutRequest) :
  validators_well_keyed db ->
  let '(resp, db', queue') := RequestPayout fx vid db queue in
  (db' = db /\ queue' = queue) \/
  (exists v, db_validators db !! vid = Some v /\ 0 < v_PendingPayouts v /\
     queue' = queue ++ [mkPayoutRequest vid (v_PendingPayouts v) (v_PublicKey v)] /\
     ((resp = RespSuccess 200 "queued" "Payout request queued for processing"
                (v_PendingPayouts v) /\ db' = db_set_pending vid 0 db) \/
      (db' = db /\ exists msg, resp = RespError 500 msg))).
Proof.
  intros Hw. unfold RequestPayout.
  destruct (pf_lock fx); [by left|].
  destruct (db_validators db !! vid) as [v|] eqn:Hv; [|by left].
  rewrite (Hw vid v Hv).
  destruct (v_PendingPayouts v <=? 0) eqn:Hpos; [by left|].
  apply Z.leb_gt in Hpos.
  destruct (pf_publish fx); [by left|].
  destruct (pf_update fx); [right; exists v; split_and!; [done..|right; eauto]|].
  destruct (pf_commit fx); [right; exists v; split_and!; [done..|right; eauto]|].
  right; exists v; split_and!; [done..|by left].
Qed.

Lemma RequestPayout_outcomes_witness :
  let '(resp, db', queue') := RequestPayout no_payout_faults "v1" db_credit100 [] in
  (db' = db_credit100 /\ queue' = []) \/
  (exists v, db_validators db_credit100 !! "v1" = Some v /\ 0 < v_PendingPayouts v /\
     queue' = [] ++ [mkPayoutRequest "v1" (v_PendingPayouts v) (v_PublicKey v)] /\
     ((resp = RespSuccess 200 "queued" "Payout request queued for processing"
                (v_PendingPayouts v) /\ db' = db_set_pending "v1" 0 db_credit100) \/
      (db' = db_credit100 /\ exists msg, resp = RespError 500 msg))).
Proof.
  exact (RequestPayout_outcomes no_payout_faults "v1" db_credit100 [] db_credit100_well_keyed).
Defined.

(** X8: a second settlement request right after a fault-free one,
    whatever faults the second call meets, publishes nothing and changes
    nothing, so one credit is never queued twice: it answers "cleared"
    (or 404 for an unknown validator), or 500 "Database error" when its
    locking read fails. *)
Theorem RequestPayout_twice (fx2 : PayoutFaults) (vid : string) (db : DB)
    (queue : list PayoutRequest) :
  validators_well_keyed db ->
  let '(_, db1, q1) := RequestPayout no_payout_faults vid db queue in
  let '(r2, db2, q2) := RequestPayout fx2 vid db1 q1 in
  db2 = db1 /\ q2 = q1 /\ (length q1 <= S (length queue))%nat /\
  (pf_lock fx2 = true -> r2 = RespError 500 "Database error") /\
  (pf_lock fx2 = false ->
   r2 = RespSuccess 200 "cleared" "all payment cleared" 0 \/
   r2 = RespError 404 "Validator not found").
Proof.
  intros Hw. unfold RequestPayout at 1. simpl.
  destruct (db_validators db !! vid) as [v|] eqn:Hv.
  - rewrite (Hw vid v Hv).
    destruct (v_PendingPayouts v <=? 0) eqn:Hpos.
    + unfold RequestPayout. destruct (pf_lock fx2); [repeat split; try lia; done|].
      rewrite Hv, Hpos. repeat split; [lia|done|]. by left.
    + unfold RequestPayout. destruct (pf_lock fx2);
        [repeat split; try (rewrite length_app; simpl; lia); done|].
      unfold db_set_pending; simpl. rewrite lookup_alter_eq, Hv. simpl.
      repeat split; [rewrite length_app; simpl; lia|done|]. by left.
  - unfold RequestPayout. destruct (pf_lock fx2); [repeat split; try lia; done|].
    rewrite Hv. repeat split; [lia|done|]. by right.
Qed.

Lemma RequestPayout_twice_witness :
  let '(_, db1, q1) := RequestPayout no_payout_faults "v1" db_credit100 [] in
  let '(r2, db2, q2) := RequestPayout (mkPayoutFaults true false false false) "v1" db1 q1 in
  db2 = db1 /\ q2 = q1 /\ (length q1 <= S (length (@nil PayoutRequest)))%nat /\
  (pf_lock (mkPayoutFaults true false false false) = true ->
   r2 = RespError 500 "Database error") /\
  (pf_lock (mkPayoutFaults true false false false) = false ->
   r2 = RespSuccess 200 "cleared" "all payment cleared" 0 \/
   r2 = RespError 404 "Validator not found").
Proof.
  exact (RequestPayout_twice (mkPayoutFaults true false false false) "v1" db_credit100 []
           db_credit100_well_keyed).
Defined.

(** X9: the worker asks for redelivery only when the payout record could
    not be created, and then it has changed nothing; an undecodable
    message is rejected for good with nothing changed. *)
Theorem processPayoutRequest_requeue (rec_id : string) (wf : WorkerFaults) (env : SolanaEnv)
    (polls : nat -> SigStatusAnswer) (body : PayoutBody) (db : DB) :
  let '(db', act) := processPayoutRequest rec_id wf env polls body db in
  (act = Nacked true <->
     exists req, body = BodyPayout req /\
       (wf_create wf = true \/ is_Some (db_payouts db !! rec_id))) /\
  (act = Nacked true -> db' = db) /\
  (body = BodyMalformed -> db' = db /\ act = Nacked false).
Proof.
  unfold processPayoutRequest. destruct body as [req|].
  - destruct (wf_create wf || bool_decide (is_Some (db_payouts db !! rec_id))) eqn:E.
    + apply orb_true_iff in E. rewrite bool_decide_eq_true in E.
      split; [split; [intros _; eauto|done]|]. split; [done|discriminate].
    + apply orb_false_iff in E as [E1 E2]. apply bool_decide_eq_false in E2.
      assert (Hno : ~ exists req', BodyPayout req = BodyPayout req' /\
                      (wf_create wf = true \/ is_Some (db_payouts db !! rec_id))).
      { intros (? & _ & [?|?]); congruence. }
      destruct (executeSolanaTransfer env (pr_PublicKey req) (pr_Amount req)) as [err|sig].
      * split; [split; [discriminate|tauto]|]. split; [discriminate|discriminate].
      * destruct (waitForConfirmation CONFIRM_TIMEOUT_MS CONFIRM_INTERVAL_MS polls)
          as [confirmed e].
        destruct (bool_decide (is_Some e) || negb confirmed).
        -- split; [split; [discriminate|tauto]|]. split; [discriminate|discriminate].
        -- split; [split; [discriminate|tauto]|]. split; [discriminate|discriminate].
  - split; [split; [discriminate|intros (? & ? & _); discriminate]|].
    split; [discriminate|done].
Qed.

(** X10: the worker never touches targets or Result rows, and it changes
    a credit only when the transfer could not be submitted: then only the
    request's validator's credit, by the requested amount. *)
Theorem processPayoutRequest_credit (rec_id : string) (wf : WorkerFaults) (env : SolanaEnv)
    (polls : nat -> SigStatusAnswer) (body : PayoutBody) (db : DB) :
  let '(db', _) := processPayoutRequest rec_id wf env polls body db in
  db_websites db' = db_websites db /\ db_ticks db' = db_ticks db /\
  forall vid, credit_of vid db' = credit_of vid db \/
    exists req err, body = BodyPayout req /\
      executeSolanaTransfer env (pr_PublicKey req) (pr_Amount req) = inl err /\
      vid = pr_ValidatorID req /\ credit_of vid db' = credit_of vid db + pr_Amount req.
Proof.
  unfold processPayoutRequest. destruct body as [req|]; [|split; [done|split; [done|by left]]].
  destruct (wf_create wf || _); [split; [done|split; [done|by left]]|].
  destruct (executeSolanaTransfer env (pr_PublicKey req) (pr_Amount req)) as [err|sig] eqn:Hexec.
  - set (db2 := mark_payout (wf_mark wf) _ _).
    assert (Hc2 : forall vid, credit_of vid db2 = credit_of vid db)
      by (intros vid; subst db2; by rewrite credit_of_mark_payout, credit_of_put_payout).
    assert (Hw2 : db_websites db2 = db_websites db /\ db_ticks db2 = db_ticks db)
      by (subst db2; unfold mark_payout; by destruct (wf_mark wf)).
    destruct (wf_refund wf).
    + split; [apply Hw2|split; [apply Hw2|]]. intros vid. left. apply Hc2.
    + split; [apply Hw2|split; [apply Hw2|]]. intros vid.
      rewrite credit_of_add_pending, Hc2.
      destruct (decide (vid = pr_ValidatorID req /\ is_Some (db_validators db2 !! pr_ValidatorID req)))
        as [[-> Hs]|Hn].
      * rewrite bool_decide_true by done. right. eauto 6.
      * rewrite bool_decide_false by done. left. lia.
  - destruct (waitForConfirmation CONFIRM_TIMEOUT_MS CONFIRM_INTERVAL_MS polls) as [confirmed e].
    destruct (bool_decide (is_Some e) || negb confirmed); unfold mark_payout;
      destruct (wf_mark wf); (split; [done|split; [done|]]); intros vid; left; done.
Qed.

Lemma confirmation_loop_continue (n i : nat) (polls : nat -> SigStatusAnswer) :
  poll_continues (polls i) = true ->
  confirmation_loop (S n) i polls = confirmation_loop n (S i) polls.
Proof.
  intros Hc. simpl. destruct (polls i) as [| |cs [e|]]; simpl in *; try done.
  - by destruct (is_finalized cs).
  - by destruct (is_finalized cs).
Qed.

Lemma confirmation_loop_cases (n i : nat) (polls : nat -> SigStatusAnswer) :
  ((forall k, (k < n)%nat -> poll_continues (polls (i + k)%nat) = true) /\
   confirmation_loop n i polls = (false, Some "confirmation timeout")) \/
  (exists k, (k < n)%nat /\
     (forall k', (k' < k)%nat -> poll_continues (polls (i + k')%nat) = true) /\
     ((exists e, polls (i + k)%nat = StatusOf Finalized e /\
                 confirmation_loop n i polls = (true, None)) \/
      (exists cs e, is_finalized cs = false /\ polls (i + k)%nat = StatusOf cs (Some e) /\
                 confirmation_loop n i polls =
                   (false, Some (String.append "transaction failed: " e))))).
Proof.
  revert i. induction n as [|n IH]; intros i.
  - left. split; [intros k Hk; lia|done].
  - destruct (poll_continues (polls i)) eqn:Hc.
    + rewrite (confirmation_loop_continue n i polls Hc).
      destruct (IH (S i)) as [[Hall Heq] | (k & Hk & Hbefore & Hstop)].
      * left. split; [|done]. intros [|k] Hk.
        -- by rewrite Nat.add_0_r.
        -- rewrite <- Nat.add_succ_comm. apply Hall. lia.
      * right. exists (S k). split; [lia|]. split.
        -- intros [|k'] Hk'.
           ++ by rewrite Nat.add_0_r.
           ++ rewrite <- Nat.add_succ_comm. apply Hbefore. lia.
        -- rewrite <- Nat.add_succ_comm. exact Hstop.
    + right. exists 0%nat. split; [lia|]. split; [intros; lia|].
      rewrite Nat.add_0_r. simpl.
      destruct (polls i) as [| |cs err]; try discriminate.
      destruct (is_finalized cs) eqn:Hf.
      * left. exists err. destruct cs; try discriminate. done.
      * destruct err as [e|]; [|simpl in Hc; rewrite Hf in Hc; discriminate].
        right. exists cs, e. done.
Qed.

Lemma waitForConfirmation_fuel polls :
  waitForConfirmation CONFIRM_TIMEOUT_MS CONFIRM_INTERVAL_MS polls = confirmation_loop 15 0 polls.
Proof. reflexivity. Qed.

Lemma waitForConfirmation_confirmed_no_error polls :
  fst (waitForConfirmation CONFIRM_TIMEOUT_MS CONFIRM_INTERVAL_MS polls) = true ->
  waitForConfirmation CONFIRM_TIMEOUT_MS CONFIRM_INTERVAL_MS polls = (true, None).
Proof.
  rewrite waitForConfirmation_fuel.
  destruct (confirmation_loop_cases 15 0 polls)
    as [[_ ->] | (k & _ & _ & [(e & _ & ->) | (cs & e & _ & _ & ->)])]; simpl; done.
Qed.

(** X11: the confirmation wait polls the ledger at most 15 times (the
    ticks at 2s, ..., 30s, the last at the deadline).  It reports success at
    the first finalized status whatever its error field, reports
    "transaction failed" at the first non-finalized status carrying an
    error, and times out when every one of the 15 polls was an RPC error,
    an empty answer or a non-finalized status without error. *)
Theorem waitForConfirmation_outcomes (polls : nat -> SigStatusAnswer) :
  let r := waitForConfirmation CONFIRM_TIMEOUT_MS CONFIRM_INTERVAL_MS polls in
  ((forall k, (k < 15)%nat -> poll_continues (polls k) = true) /\
   r = (false, Some "confirmation timeout")) \/
  (exists k, (k < 15)%nat /\
     (forall k', (k' < k)%nat -> poll_continues (polls k') = true) /\
     ((exists e, polls k = StatusOf Finalized e /\ r = (true, None)) \/
      (exists cs e, is_finalized cs = false /\ polls k = StatusOf cs (Some e) /\
                 r = (false, Some (String.append "transaction failed: " e))))).
Proof.
  simpl. rewrite waitForConfirmation_fuel. apply (confirmation_loop_cases 15 0 polls).
Qed.

(** X12: when the transfer is submitted and the wait reports it
    confirmed, the message is acknowledged and no credit changes; the
    record becomes [completed] with the signature, or, if that update
    fails, stays [processing] for good. *)
Theorem processPayoutRequest_confirmed (rec_id : string) (wf : WorkerFaults) (env : SolanaEnv)
    (polls : nat -> SigStatusAnswer) (req : PayoutRequest) (db : DB) (sig : string) :
  wf_create wf = false -> db_payouts db !! rec_id = None ->
  executeSolanaTransfer env (pr_PublicKey req) (pr_Amount req) = inr sig ->
  fst (waitForConfirmation CONFIRM_TIMEOUT_MS CONFIRM_INTERVAL_MS polls) = true ->
  let '(db', act) := processPayoutRequest rec_id wf env polls (BodyPayout req) db in
  act = Acked /\ db_validators db' = db_validators db /\
  db_payouts db' !! rec_id =
    Some (mkPayoutTx rec_id (pr_ValidatorID req) (pr_Amount req)
            (if wf_mark wf then "processing" else "completed")
            (if wf_mark wf then "" else sig) "").
Proof.
  intros Hc Hfresh Hexec Hw. unfold processPayoutRequest.
  rewrite Hc, Hfresh. simpl. try rewrite bool_decide_false by (intros [? ?]; discriminate).
  simpl. rewrite Hexec, (waitForConfirmation_confirmed_no_error polls Hw). simpl.
  unfold mark_payout. destruct (wf_mark wf); simpl;
    (split; [done|split; [done|apply lookup_insert_eq]]).
Qed.

Lemma processPayoutRequest_confirmed_witness :
  let '(db', act) := processPayoutRequest "r1" no_worker_faults env_send_ok polls_finalized
                       (BodyPayout (mkPayoutRequest "v1" 100 "pk1")) db_sample in
  act = Acked /\ db_validators db' = db_validators db_sample /\
  db_payouts db' !! "r1" =
    Some (mkPayoutTx "r1" "v1" 100
            (if wf_mark no_worker_faults then "processing" else "completed")
            (if wf_mark no_worker_faults then "" else "sig1") "").
Proof.
  apply (processPayoutRequest_confirmed "r1" no_worker_faults env_send_ok polls_finalized
           (mkPayoutRequest "v1" 100 "pk1") db_sample "sig1"); reflexivity.
Defined.



(** ** Target management *)

Lemma in_active_websites (db : DB) (w : Website) :
  In w (active_websites db) <-> (exists k, db_websites db !! k = Some w) /\ w_Disabled w = false.
Proof.
  unfold active_websites.
  rewrite <- list_elem_of_In, list_elem_of_filter, list_elem_of_In, in_values_iff. tauto.
Qed.

(** X14: a target is created only for an authenticated user and a valid
    body: the new row has the generated id, the URL, the user as owner and
    is enabled, so the next monitoring cycle includes it; every other
    answer leaves the store as it was. *)
Theorem CreateWebsite_outcomes (userID : option string) (bound : string + string)
    (new_id : string) (fx_create : bool) (db : DB) :
  let '(resp, db') := CreateWebsite userID bound new_id fx_create db in
  (userID = None -> resp = WebError 401 "User not authenticated") /\
  match resp with
  | WebCreated id url =>
      exists uid, userID = Some uid /\ bound = inr url /\ id = new_id /\
        db_websites db !! new_id = None /\
        db' = mkDB (<[new_id := mkWebsite new_id url uid false]> (db_websites db))
                   (db_validators db) (db_ticks db) (db_payouts db) /\
        In (mkWebsite new_id url uid false) (active_websites db')
  | _ => db' = db
  end.
Proof.
  unfold CreateWebsite. destruct userID as [uid|]; [|done].
  destruct bound as [e|url]; [done|].
  destruct (fx_create || bool_decide (is_Some (db_websites db !! new_id))) eqn:E; [done|].
  apply orb_false_iff in E as [_ E]. apply bool_decide_eq_false in E.
  split; [discriminate|]. exists uid. split_and!; try done.
  - by apply eq_None_not_Some.
  - apply in_active_websites. split; [|done]. exists new_id. simpl. apply lookup_insert_eq.
Qed.

(** X15: deleting a target succeeds only for a target of the requesting
    user, and then only disables it: its row and Result rows stay, and the
    monitored targets become the previous ones minus this one.  Every
    other answer (including a target of another user, answered 404)
    leaves the store as it was. *)
Theorem DeleteWebsite_outcomes (userID : string) (bound : option string) (fx_update : bool)
    (db : DB) :
  websites_well_keyed db ->
  let '(resp, db') := DeleteWebsite userID bound fx_update db in
  db_validators db' = db_validators db /\ db_ticks db' = db_ticks db /\
  db_payouts db' = db_payouts db /\
  ((resp = WebOk "Website deleted successfully" /\
    exists wid w, bound = Some wid /\ db_websites db !! wid = Some w /\ w_UserID w = userID /\
      db_websites db' = <[wid := disable w]> (db_websites db) /\
      forall x, In x (active_websites db') <-> In x (active_websites db) /\ w_ID x <> wid) \/
   (db' = db /\ exists code msg, resp = WebError code msg)).
Proof.
  intros Hw. unfold DeleteWebsite.
  destruct bound as [wid|]; [|split_and!; try done; right; eauto].
  destruct fx_update; [split_and!; try done; right; eauto|].
  destruct (db_websites db !! wid) as [w|] eqn:Hwid; [|split_and!; try done; right; eauto].
  destruct (bool_decide (w_UserID w = userID)) eqn:Hu; [|split_and!; try done; right; eauto].
  apply bool_decide_eq_true in Hu. simpl. split_and!; try done. left. split; [done|].
  exists wid, w. split_and!; try done. intros x.
  rewrite !in_active_websites. simpl. split.
  - intros [[k Hk] Hd]. apply lookup_insert_Some in Hk as [[<- <-] | [Hne Hk]];
      [simpl in Hd; discriminate|].
    split; [eauto|]. by rewrite (Hw k x Hk).
  - intros [[[k Hk] Hd] Hne]. split; [|done]. exists k.
    rewrite lookup_insert_ne; [done|]. intros <-. apply Hne. by apply (Hw wid x).
Qed.

Lemma DeleteWebsite_outcomes_witness :
  let '(resp, db') := DeleteWebsite "u1" (Some "w1") false db_sample in
  db_validators db' = db_validators db_sample /\ db_ticks db' = db_ticks db_sample /\
  db_payouts db' = db_payouts db_sample /\
  ((resp = WebOk "Website deleted successfully" /\
    exists wid w, Some "w1" = Some wid /\ db_websites db_sample !! wid = Some w /\
      w_UserID w = "u1" /\
      db_websites db' = <[wid := disable w]> (db_websites db_sample) /\
      forall x, In x (active_websites db') <-> In x (active_websites db_sample) /\ w_ID x <> wid) \/
   (db' = db_sample /\ exists code msg, resp = WebError code msg)).
Proof.
  apply (DeleteWebsite_outcomes "u1" (Some "w1") false db_sample).
  intros k w H. cbn [db_websites db_sample] in H.
  apply lookup_singleton_Some in H as [<- <-]. reflexivity.
Defined.

(** ** Authentication *)

Lemma substring_0_length (t : string) : String.substring 0 (String.length t) t = t.
Proof. induction t as [|c t IH]; simpl; [done|]. by rewrite IH. Qed.

Lemma TrimPrefix_append (p t : string) : TrimPrefix (String.append p t) p = t.
Proof.
  unfold TrimPrefix.
  assert (Hp : String.prefix p (String.append p t) = true).
  { induction p as [|c p IH]; simpl; [by destruct t|].
    destruct (Ascii.ascii_dec c c); [exact IH|congruence]. }
  rewrite Hp.
  assert (Hl : (String.length (String.append p t) - String.length p)%nat = String.length t).
  { clear Hp. induction p as [|c p IH]; [apply Nat.sub_0_r|exact IH]. }
  rewrite Hl. clear Hp Hl.
  induction p as [|c p IH]; simpl; [apply substring_0_length|]. exact IH.
Qed.

Lemma TrimPrefix_bearer (t : string) :
  TrimPrefix (String.append "Bearer " t) "Bearer " = t.
Proof. apply TrimPrefix_append. Qed.

Lemma TrimPrefix_no_prefix (s p : string) : String.prefix p s = false -> TrimPrefix s p = s.
Proof. unfold TrimPrefix. by intros ->. Qed.

(** X16: the middleware answers 401 to a request without the header; a
    header "Bearer <t>" has exactly the token [t] verified, and a header
    without that prefix is verified as a whole token: the request goes on
    with the token's user id, or is answered 401 with the verification
    error. *)
Theorem AuthMiddleware_token (VerifyJWT : string -> string + string) (t : string) :
  let verdict := match VerifyJWT t with
                 | inl err => AuthAbort 401 (String.append "Invalid token: " err)
                 | inr userID => AuthNext userID
                 end in
  AuthMiddleware VerifyJWT "" = AuthAbort 401 "Authorization header required" /\
  AuthMiddleware VerifyJWT (String.append "Bearer " t) = verdict /\
  (t <> "" -> String.prefix "Bearer " t = false -> AuthMiddleware VerifyJWT t = verdict).
Proof.
  simpl. split; [done|]. split.
  - unfold AuthMiddleware.
    assert (E1 : String.eqb (String.append "Bearer " t) "" = false) by done.
    assert (E2 : String.eqb t (String.append "Bearer " t) = false).
    { apply String.eqb_neq. intros Heq.
      assert (Hl : String.length t = String.length (String.append "Bearer " t)) by (f_equal; exact Heq).
      simpl in Hl. change (String.append "" t) with t in Hl. lia. }
    rewrite E1, TrimPrefix_bearer, E2. done.
  - intros Hne Hp. unfold AuthMiddleware.
    destruct (String.eqb t "") eqn:E; [apply String.eqb_eq in E; congruence|].
    rewrite TrimPrefix_no_prefix by done. by rewrite String.eqb_refl.
Qed.

(** ** Accounts *)

(** X17: login cannot tell an unknown email from a wrong password (or
    from a failing lookup): all three get the same 401 "Invalid
    credentials". *)
Theorem Login_uniform_rejection (bcrypt_compare : string -> string -> bool)
    (jwt_sign : JwtClaims -> string + string) (email password : string) (now_exp now_iat : Z)
    (fx_find : bool) (users : gmap string User) :
  (fx_find = true \/ find_user_by_email email users = None \/
   exists u, find_user_by_email email users = Some u /\
             bcrypt_compare (u_Password u) password = false) ->
  Login bcrypt_compare jwt_sign (inr (email, password)) now_exp now_iat fx_find users =
    AccError 401 "Invalid credentials".
Proof.
  intros H. unfold Login. destruct fx_find; [done|].
  destruct H as [H | [-> | (u & -> & Hc)]]; [discriminate|done|]. by rewrite Hc.
Qed.

Lemma Login_uniform_rejection_witness :
  Login compare_stub jwt_stub (inr ("b@x.io", "pw")) 1000 1000 false users_sample =
    AccError 401 "Invalid credentials" /\
  Login compare_stub jwt_stub (inr ("a@x.io", "wrong")) 1000 1000 false users_sample =
    AccError 401 "Invalid credentials".
Proof.
  split.
  - apply (Login_uniform_rejection compare_stub jwt_stub "b@x.io" "pw" 1000 1000 false users_sample).
    right; left. vm_compute. reflexivity.
  - apply (Login_uniform_rejection compare_stub jwt_stub "a@x.io" "wrong" 1000 1000 false
             users_sample).
    right; right. eexists. split; vm_compute; reflexivity.
Defined.

Lemma find_user_by_email_none email users :
  find_user_by_email email users = None ->
  forall k u, users !! k = Some u -> u_Email u <> email.
Proof.
  unfold find_user_by_email. intros H k u Hk.
  apply (head_filter_none _ _ H). apply in_values_iff. eauto.
Qed.

Lemma find_user_by_email_insert email users nid u :
  find_user_by_email email users = None -> users !! nid = None -> u_Email u = email ->
  find_user_by_email email (<[nid := u]> users) = Some u.
Proof.
  intros Hf Hn He. unfold find_user_by_email. apply head_filter_unique.
  - apply in_values_iff. exists nid. apply lookup_insert_eq.
  - done.
  - intros x Hx Hex. apply in_values_iff in Hx as [k Hk].
    apply lookup_insert_Some in Hk as [[_ <-] | [_ Hk]]; [done|].
    exfalso. exact (find_user_by_email_none _ _ Hf k x Hk Hex).
Qed.

Lemma emails_unique_insert users nid u :
  emails_unique users -> find_user_by_email (u_Email u) users = None ->
  emails_unique (<[nid := u]> users).
Proof.
  intros Hu Hf k1 k2 u1 u2. rewrite !lookup_insert_Some.
  pose proof (find_user_by_email_none _ _ Hf) as Hn.
  intros [[<- <-] | [Hne1 H1]] [[<- <-] | [Hne2 H2]] He.
  - done.
  - exfalso. by apply (Hn k2 u2 H2).
  - exfalso. by apply (Hn k1 u1 H1).
  - by apply (Hu k1 k2 u1 u2).
Qed.

(** X18: a signup adds at most one account, under the generated id, with
    the requested email and the hash of the password, and only if no
    account has that email; so emails stay unique, even when the
    existence check itself fails (the unique index then refuses the
    duplicate). *)
Theorem Signup_keeps_emails_unique (bcrypt_generate : string -> string -> string + string)
    (jwt_sign : JwtClaims -> string + string) (bound : string + (string * string))
    (new_id salt : string) (now_exp now_iat : Z) (fx_find fx_create : bool)
    (users : gmap string User) :
  emails_unique users ->
  let '(_, users') := Signup bcrypt_generate jwt_sign bound new_id salt now_exp now_iat
                        fx_find fx_create users in
  emails_unique users' /\
  (users' = users \/
   exists email password hashed,
     bound = inr (email, password) /\ bcrypt_generate salt password = inr hashed /\
     users !! new_id = None /\ find_user_by_email email users = None /\
     users' = <[new_id := mkUser new_id email hashed]> users).
Proof.
  intros Hu. unfold Signup.
  destruct bound as [e|[email password]]; [by split; [|left]|].
  destruct (negb fx_find && _); [by split; [|left]|].
  destruct (bcrypt_generate salt password) as [e|hashed] eqn:Hg; [by split; [|left]|].
  destruct (fx_create || _ || _) eqn:E; [by split; [|left]|].
  apply orb_false_iff in E as [E E3]. apply orb_false_iff in E as [_ E2].
  apply bool_decide_eq_false in E2, E3.
  apply eq_None_not_Some in E2, E3.
  assert (Hins : emails_unique (<[new_id := mkUser new_id email hashed]> users))
    by (by apply emails_unique_insert).
  destruct (GenerateJWT jwt_sign now_exp now_iat new_id); (split; [exact Hins|right; eauto 8]).
Qed.

Lemma Signup_keeps_emails_unique_witness :
  let '(_, users') := Signup bcrypt_stub jwt_stub (inr ("a@x.io", "pw2")) "u2" "salt" 1000 1000
                        true false users_sample in
  emails_unique users' /\
  (users' = users_sample \/
   exists email password hashed,
     @inr string (string * string) ("a@x.io", "pw2") = inr (email, password) /\ bcrypt_stub "salt" password = inr hashed /\
     users_sample !! "u2" = None /\ find_user_by_email email users_sample = None /\
     users' = <[ "u2" := mkUser "u2" email hashed]> users_sample).
Proof.
  apply (Signup_keeps_emails_unique bcrypt_stub jwt_stub (inr ("a@x.io", "pw2")) "u2" "salt"
           1000 1000 true false users_sample).
  intros k1 k2 u1 u2 H1 H2 _. unfold users_sample in H1, H2.
  apply lookup_singleton_Some in H1 as [<- _]. apply lookup_singleton_Some in H2 as [<- _].
  reflexivity.
Defined.

(** X19: a fault-free signup for a new email answers 201 with the token
    signed over the claims [sub] = new id, [exp] and [iat] read from the
    clock during the signup; a later login with the same email and
    password (the password checks against its own hash) answers 200 with
    that id and email and the token signed over [sub] = new id with the
    clock readings of the login.  The two tokens name the same subject;
    they differ whenever the signing does on the two issue times. *)
Theorem Signup_then_Login (bcrypt_generate : string -> string -> string + string)
    (bcrypt_compare : string -> string -> bool) (jwt_sign : JwtClaims -> string + string)
    (email password new_id salt tok1 tok2 : string) (t1_exp t1_iat t2_exp t2_iat : Z)
    (users : gmap string User) :
  (forall s p hashed, bcrypt_generate s p = inr hashed -> bcrypt_compare hashed p = true) ->
  (exists hashed, bcrypt_generate salt password = inr hashed) ->
  jwt_sign (mkJwtClaims new_id (t1_exp + 24 * 3600) t1_iat) = inr tok1 ->
  jwt_sign (mkJwtClaims new_id (t2_exp + 24 * 3600) t2_iat) = inr tok2 ->
  find_user_by_email email users = None -> users !! new_id = None ->
  let '(r1, users') := Signup bcrypt_generate jwt_sign (inr (email, password)) new_id salt
                         t1_exp t1_iat false false users in
  r1 = AccToken 201 tok1 new_id email /\
  Login bcrypt_compare jwt_sign (inr (email, password)) t2_exp t2_iat false users' =
    AccToken 200 tok2 new_id email.
Proof.
  intros Hbc [hashed Hg] Hj1 Hj2 Hf Hn. unfold Signup. cbv beta iota.
  rewrite (bool_decide_false (is_Some (find_user_by_email email users)))
    by (rewrite Hf; intros [? ?]; discriminate).
  rewrite Hg. cbv beta iota.
  rewrite (bool_decide_false (is_Some (users !! new_id))) by (rewrite Hn; intros [? ?]; discriminate).
  simpl. unfold GenerateJWT. rewrite Hj1. split; [done|].
  unfold Login. rewrite (find_user_by_email_insert email users new_id (mkUser new_id email hashed) Hf Hn eq_refl).
  simpl. rewrite (Hbc salt password hashed Hg). simpl. unfold GenerateJWT. by rewrite Hj2.
Qed.

Lemma Signup_then_Login_witness :
  let '(r1, users') := Signup bcrypt_stub jwt_stub (inr ("b@x.io", "pw2")) "u2" "salt"
                         1000 1000 false false users_sample in
  r1 = AccToken 201 "tok:u2@1000" "u2" "b@x.io" /\
  Login compare_stub jwt_stub (inr ("b@x.io", "pw2")) 5000 5000 false users' =
    AccToken 200 "tok:u2@other" "u2" "b@x.io".
Proof.
  apply (Signup_then_Login bcrypt_stub compare_stub jwt_stub "b@x.io" "pw2" "u2" "salt"
           "tok:u2@1000" "tok:u2@other" 1000 1000 5000 5000 users_sample).
  - intros s p hashed H. injection H as <-. apply String.eqb_refl.
  - eexists. reflexivity.
  - reflexivity.
  - reflexivity.
  - vm_compute. reflexivity.
  - reflexivity.
Defined.

(** ** Deleted targets and the monitoring loop *)

Lemma active_after_disable (db : DB) (wid : string) (w : Website) :
  websites_well_keyed db -> db_websites db !! wid = Some w ->
  forall x, In x (active_websites (mkDB (<[wid := disable w]> (db_websites db))
                                      (db_validators db) (db_ticks db) (db_payouts db))) <->
            In x (active_websites db) /\ w_ID x <> wid.
Proof.
  intros Hw Hwid x. rewrite !in_active_websites. simpl. split.
  - intros [[k Hk] Hd]. apply lookup_insert_Some in Hk as [[<- <-] | [Hne Hk]];
      [simpl in Hd; discriminate|].
    split; [eauto|]. by rewrite (Hw k x Hk).
  - intros [[[k Hk] Hd] Hne]. split; [|done]. exists k.
    rewrite lookup_insert_ne; [done|]. intros <-. apply Hne. by apply (Hw wid x).
Qed.

Lemma in_zip_fst {A B} (l : list A) (k : list B) a b : In (a, b) (zip l k) -> In a l.
Proof.
  revert k. induction l as [|x l IH]; intros [|y k]; simpl; try tauto.
  intros [Heq | Hin]; [left; congruence | right; eauto].
Qed.

Lemma in_dispatch_pairs ws vs w v : In (w, v) (dispatch_pairs ws vs) -> In w ws.
Proof.
  unfold dispatch_pairs. rewrite in_concat. intros (l & Hl & Hin).
  apply in_map_iff in Hl as (w' & <- & Hw'). apply in_map_iff in Hin as (v' & Heq & _).
  congruence.
Qed.

(** What a monitoring cycle appends to the trace is about active targets
    only. *)
Lemma monitoring_cycle_targets (uuidNew : nat -> string) (fetch_fail : bool) (h : Hub) :
  exists new, h_trace (monitoring_cycle uuidNew fetch_fail h) = h_trace h ++ new /\
    forall e, In e new ->
      exists w, In w (active_websites (h_db h)) /\
        match e with
        | EvSend _ task => task_websiteId task = w_ID w
        | EvRegister _ cb => cb_websiteID cb = w_ID w
        | EvInvoke _ _ => False
        end.
Proof.
  unfold monitoring_cycle.
  destruct fetch_fail; [exists []; rewrite app_nil_r; split; [done|intros ? []]|].
  destruct (active_websites (h_db h)) as [|w0 ws0] eqn:Hws;
    [exists []; rewrite app_nil_r; split; [done|intros ? []]|].
  destruct (snapshot_validators h) as [|v0 vs0] eqn:Hvs;
    [exists []; rewrite app_nil_r; split; [done|intros ? []]|].
  destruct (send_tasks_spec uuidNew (w0 :: ws0) (v0 :: vs0) h) as (Ht & _).
  eexists. split; [exact Ht|]. intros e He.
  unfold dispatch_spec_events in He. apply in_concat in He as (l & Hl & Hin).
  apply in_map_iff in Hl as ([[w v] id] & <- & Hp).
  unfold dispatch_tagged in Hp. apply in_zip_fst, in_dispatch_pairs in Hp.
  exists w. split; [done|]. simpl in Hin. destruct Hin as [<- | [<- | []]]; done.
Qed.

(** X20: once a target has been deleted, the next monitoring cycle
    neither registers a handler nor sends a task for it, whatever
    validators are connected and whether or not its website query
    fails. *)
Theorem deleted_target_not_dispatched (uuidNew : nat -> string) (userID wid : string)
    (fx_update fetch_fail : bool) (h : Hub) :
  websites_well_keyed (h_db h) ->
  let '(resp, db') := DeleteWebsite userID (Some wid) fx_update (h_db h) in
  resp = WebOk "Website deleted successfully" ->
  let h0 := mkHub db' (h_validators h) (h_callbacks h) (h_next_uuid h) (h_trace h) in
  exists new, h_trace (monitoring_cycle uuidNew fetch_fail h0) = h_trace h ++ new /\
    forall e, In e new ->
      match e with
      | EvSend _ task => task_websiteId task <> wid
      | EvRegister _ cb => cb_websiteID cb <> wid
      | EvInvoke _ _ => False
      end.
Proof.
  intros Hw. unfold DeleteWebsite.
  destruct fx_update; [discriminate|].
  destruct (db_websites (h_db h) !! wid) as [w|] eqn:Hwid; [|discriminate].
  destruct (bool_decide (w_UserID w = userID)); [|discriminate].
  intros _.
  set (h0 := mkHub _ (h_validators h) (h_callbacks h) (h_next_uuid h) (h_trace h)).
  destruct (monitoring_cycle_targets uuidNew fetch_fail h0) as (new & Ht & Hnew).
  exists new. split; [exact Ht|]. intros e He.
  destruct (Hnew e He) as (x & Hx & Hmatch).
  apply (active_after_disable (h_db h) wid w Hw Hwid) in Hx as [_ Hne].
  destruct e; congruence.
Qed.

Lemma deleted_target_not_dispatched_witness :
  let h := mkHub db_sample {[ "v1" := mkVC "v1" "pk1" 7 ]} ∅ 0 [] in
  let '(resp, db') := DeleteWebsite "u1" (Some "w1") false (h_db h) in
  resp = WebOk "Website deleted successfully" ->
  let h0 := mkHub db' (h_validators h) (h_callbacks h) (h_next_uuid h) (h_trace h) in
  exists new, h_trace (monitoring_cycle (fun n => "id") false h0) = h_trace h ++ new /\
    forall e, In e new ->
      match e with
      | EvSend _ task => task_websiteId task <> "w1"
      | EvRegister _ cb => cb_websiteID cb <> "w1"
      | EvInvoke _ _ => False
      end.
Proof.
  apply (deleted_target_not_dispatched (fun n => "id") "u1" "w1" false false
           (mkHub db_sample {[ "v1" := mkVC "v1" "pk1" 7 ]} ∅ 0 [])).
  intros k w H. cbn [db_websites db_sample h_db] in H.
  apply lookup_singleton_Some in H as [<- <-]. reflexivity.
Defined.
